(** * Gesture-Estimation: plugin registry, dispatch and detection loop

    A shallow embedding of [run_demo_final.py]: the [PluginManager] class
    (discovery, enable / disable / toggle, [run_plugins]), the body of
    [detection_loop], the module-level globals it publishes and the two
    readers of those globals ([get_status] and [generate_frames]).

    Conventions.
    - A Python [dict] is an association list in insertion order with unique
      keys ([dict_set] updates in place or appends, as CPython does).
    - Code that can raise returns a [result]; only exceptions derived from
      [Exception] are modelled.
    - Plugin code, the pose model, the hand detector and the camera are
      external: they appear as functions or recorded outcomes supplied by
      the environment.  Everything a plugin may read or write besides its
      arguments lives in an abstract [World] that is threaded through the
      calls.
    - Images are symbolic terms: a camera buffer and the drawing operations
      applied to it.  Floating point numbers are carried as bit patterns and
      never computed with.
    - Console output and the [time.sleep] pauses are left out; what
      [run_plugins] prints for a caught exception is kept as an event of the
      dispatch trace, next to an event for each call of a plugin. *)

From Stdlib Require Import List String Ascii ZArith Bool Lia DecimalString Permutation.
Import ListNotations.
Open Scope string_scope.
Open Scope list_scope.
Open Scope Z_scope.

(* ================================================================== *)
(** ** Exceptions and results *)

(** The exceptions that reach an [except Exception] handler of the modelled
    code, named after the place that raises them. *)
Inductive exn : Type :=
| ExternalError (msg : string)  (* raised inside external code *)
| UnpackError                   (* [msg, color = ...] on a value that is not a pair *)
| IntError                      (* [int(c)] on a value that has no integer reading *)
| TruthError                    (* [if v] on a value whose truth test raises *)
| StrError                      (* [str(v)] on a value that cannot be printed *)
| NoRunAttribute                (* [.run] looked up on [None] *)
| IndexError.                   (* [results[0]] on an empty list *)

Inductive result (A : Type) : Type :=
| Ok (a : A)
| Raise (e : exn).
Arguments Ok {A} a.
Arguments Raise {A} e.

(* ================================================================== *)
(** ** Python values returned by plugins *)

#[local] Set Warnings "-register-all".

(** A plugin may return any object.  The builtin types that the dispatch
    tells apart are constructors of their own; a value of any other class
    (a float, an array, an instance of a class of the plugin) is a
    [PyObject], described by what the four operations applied by the
    dispatch give for it: its truth test, [str], [int] and iteration, with
    [None] where the operation raises.  Such a value is not an instance of
    [tuple] or [list]; subclasses of these two are not modelled. *)
Inductive PyVal : Type :=
| PyNone
| PyBool (b : bool)
| PyInt (z : Z)
| PyStr (s : string)
| PyTuple (items : list PyVal)
| PyList (items : list PyVal)
| PyObject (truth : option bool) (text : option string) (number : option Z)
           (iterated : option (list PyVal)).

(** Truth value testing ([if v]). *)
Definition truthy (v : PyVal) : result bool :=
  match v with
  | PyNone => Ok false
  | PyBool b => Ok b
  | PyInt z => Ok (negb (z =? 0))
  | PyStr s => Ok (negb (String.eqb s ""))
  | PyTuple items | PyList items =>
      Ok match items with [] => false | _ :: _ => true end
  | PyObject (Some b) _ _ _ => Ok b
  | PyObject None _ _ _ => Raise TruthError
  end.

(** Iteration, as used by tuple unpacking: tuples and lists yield their
    items, a string yields its characters, [None], booleans and integers
    are not iterable. *)
Definition py_iter (v : PyVal) : option (list PyVal) :=
  match v with
  | PyTuple items | PyList items => Some items
  | PyStr s => Some (map (fun c => PyStr (String c "")) (list_ascii_of_string s))
  | PyNone | PyBool _ | PyInt _ => None
  | PyObject _ _ _ iterated => iterated
  end.

(** [msg, color = v] *)
Definition unpack2 (v : PyVal) : result (PyVal * PyVal) :=
  match py_iter v with
  | Some [a; b] => Ok (a, b)
  | _ => Raise UnpackError
  end.

(** [isinstance(v, (tuple, list))] together with the items of [v]. *)
Definition tuple_or_list (v : PyVal) : option (list PyVal) :=
  match v with
  | PyTuple items | PyList items => Some items
  | _ => None
  end.

Definition str_of_Z (z : Z) : string := NilZero.string_of_int (Z.to_int z).

(** [sys.get_int_max_str_digits()], at its default: [str] of an integer with
    more decimal digits raises. *)
Definition int_max_str_digits : nat := 4300.

Definition decimal_digits (z : Z) : nat := String.length (str_of_Z (Z.abs z)).

(* ================================================================== *)
(** ** Insertion-ordered dictionaries *)

Definition dict (V : Type) : Type := list (string * V).

Definition keys {V} (d : dict V) : list string := map fst d.

Fixpoint dict_get {V} (d : dict V) (k : string) : option V :=
  match d with
  | [] => None
  | (k', v) :: rest => if String.eqb k k' then Some v else dict_get rest k
  end.

(** [k in d] *)
Definition dict_contains {V} (d : dict V) (k : string) : bool :=
  match dict_get d k with Some _ => true | None => false end.

(** [d[k] = v]: an existing key keeps its position, a new key goes last. *)
Fixpoint dict_set {V} (d : dict V) (k : string) (v : V) : dict V :=
  match d with
  | [] => [(k, v)]
  | (k', v') :: rest =>
      if String.eqb k k' then (k, v) :: rest else (k', v') :: dict_set rest k v
  end.

(** [del d[k]] (only called on a key that is present). *)
Fixpoint dict_del {V} (d : dict V) (k : string) : dict V :=
  match d with
  | [] => []
  | (k', v') :: rest =>
      if String.eqb k k' then rest else (k', v') :: dict_del rest k
  end.

(* ================================================================== *)
(** ** Frames and detections *)

(** IEEE-754 numbers as produced by the detectors, kept as bit patterns. *)
Definition pyfloat : Type := Z.

(** One row of the pose model's keypoint array: the joints [(x, y, conf)]
    of one detected person. *)
Definition KeypointSet : Type := list (pyfloat * pyfloat * pyfloat).

(** One detected hand: its landmark coordinates. *)
Definition Hand : Type := list (pyfloat * pyfloat * pyfloat).

(** The object returned by [hands.process]; it is always truthy, its
    [multi_hand_landmarks] attribute is [None] or a list of hands. *)
Record HandResult : Type := { multi_hand_landmarks : option (list Hand) }.

Inductive Image : Type :=
| ImCamera (buffer : list Z)                       (* a frame read from the camera *)
| ImResize (src : Image) (w h : Z)                 (* cv2.resize *)
| ImCvtRGB (src : Image)                           (* cv2.cvtColor(.., COLOR_BGR2RGB) *)
| ImPlot (src : Image) (drawing : list Z)          (* an image drawn by external code *)
| ImHand (dst : Image) (hand : Hand)               (* mp_draw.draw_landmarks *)
| ImText (dst : Image) (text : string) (x y : Z).  (* cv2.putText *)

Definition TARGET_WIDTH : Z := 1024.
Definition TARGET_HEIGHT : Z := 768.

(* ================================================================== *)
(** ** ASCII helpers for [str.startswith], [str.replace] and [str.title] *)

Definition is_lower (c : ascii) : bool :=
  let n := nat_of_ascii c in (Nat.leb 97 n && Nat.leb n 122)%bool.

Definition is_upper (c : ascii) : bool :=
  let n := nat_of_ascii c in (Nat.leb 65 n && Nat.leb n 90)%bool.

Definition to_upper (c : ascii) : ascii :=
  if is_lower c then ascii_of_nat (nat_of_ascii c - 32) else c.

Definition to_lower (c : ascii) : ascii :=
  if is_upper c then ascii_of_nat (nat_of_ascii c + 32) else c.

(** [s.replace('_', ' ')] *)
Fixpoint underscores_to_spaces (s : string) : string :=
  match s with
  | EmptyString => EmptyString
  | String c rest =>
      String (if Ascii.eqb c "_" then " "%char else c) (underscores_to_spaces rest)
  end.

(** [s.title()] on ASCII text: a letter that follows no letter is put in
    upper case, a letter that follows a letter in lower case. *)
Fixpoint title_from (previous_is_cased : bool) (s : string) : string :=
  match s with
  | EmptyString => EmptyString
  | String c rest =>
      if is_lower c then
        String (if previous_is_cased then c else to_upper c) (title_from true rest)
      else if is_upper c then
        String (if previous_is_cased then to_lower c else c) (title_from true rest)
      else String c (title_from false rest)
  end.

Definition title (s : string) : string := title_from false s.

(** [s.startswith("__")] *)
Definition startswith_dunder (s : string) : bool :=
  match s with
  | String a (String b _) => (Ascii.eqb a "_" && Ascii.eqb b "_")%bool
  | _ => false
  end.

Definition getattr {A} (attribute : option A) (default : A) : A :=
  match attribute with Some a => a | None => default end.

(* ================================================================== *)
(** ** The plugin manager *)

Section PluginSystem.

(** Everything plugin code can reach besides the arguments of [run]. *)
Context {World : Type}.

(** What [module.Plugin()] returns: optional metadata attributes and the
    [run] method, called as [run(frame, annotated, kpts, hand_res)].  A call
    may change the world and draw on [annotated] whether it returns or
    raises; [frame], [kpts] and [hand_res] are inputs that plugins only
    read. *)
Record Instance : Type := {
  attr_name : option string;
  attr_description : option string;
  attr_version : option string;
  attr_category : option string;
  attr_requires_keypoints : option bool;
  attr_requires_hands : option bool;
  run : World -> Image -> Image -> option KeypointSet -> HandResult ->
        World * Image * result PyVal
}.

Record PluginInfo : Type := {
  name : string;
  module_name : string;
  enabled : bool;
  instance : option Instance;
  display_name : string;
  description : string;
  version : string;
  category : string;
  requires_keypoints : bool;
  requires_hands : bool
}.

Definition set_enabled (p : PluginInfo) (b : bool) : PluginInfo :=
  {| name := name p; module_name := module_name p; enabled := b;
     instance := instance p; display_name := display_name p;
     description := description p; version := version p;
     category := category p; requires_keypoints := requires_keypoints p;
     requires_hands := requires_hands p |}.

Record PluginManager : Type := {
  plugin_folder : string;
  available_plugins : dict PluginInfo;
  loaded_plugins : dict (option Instance)
}.

(** *** Discovery *)

(** The outcome of the [try] body for one plugin file. *)
Inductive ModuleLoad : Type :=
| ImportRaises (e : exn)      (* import_module raised *)
| NoPluginClass               (* the module has no attribute [Plugin] *)
| PluginRaises (e : exn)      (* [module.Plugin()] or reading an attribute raised *)
| Loaded (inst : Instance).

(** The plugin package as found on disk: the stems of the [*.py] files that
    [glob] returns, in that order, and what importing each of them does. *)
Record PluginPackage : Type := {
  plugin_files : list string;
  import_module : string -> ModuleLoad
}.

Definition make_plugin_info (plugin_name : string) (plugin_instance : Instance)
  : PluginInfo :=
  {| name := plugin_name;
     module_name := plugin_name;
     enabled := false;
     instance := Some plugin_instance;
     display_name :=
       getattr (attr_name plugin_instance) (title (underscores_to_spaces plugin_name));
     description :=
       getattr (attr_description plugin_instance) "No description available";
     version := getattr (attr_version plugin_instance) "1.0";
     category := getattr (attr_category plugin_instance) "general";
     requires_keypoints := getattr (attr_requires_keypoints plugin_instance) false;
     requires_hands := getattr (attr_requires_hands plugin_instance) false |}.

(** One turn of the [for plugin_file in plugin_files] loop. *)
Definition discover_one (pkg : PluginPackage)
    (available : dict PluginInfo) (plugin_name : string) : dict PluginInfo :=
  if startswith_dunder plugin_name then available
  else
    match import_module pkg plugin_name with
    | Loaded plugin_instance =>
        dict_set available plugin_name (make_plugin_info plugin_name plugin_instance)
    | NoPluginClass => available
    | ImportRaises _ | PluginRaises _ => available
    end.

(** [discover_plugins]; [None] is a plugin folder that cannot be imported. *)
Definition discover_plugins (pm : PluginManager) (package : option PluginPackage)
  : PluginManager :=
  match package with
  | None => pm
  | Some pkg =>
      {| plugin_folder := plugin_folder pm;
         available_plugins :=
           fold_left (discover_one pkg) (plugin_files pkg) (available_plugins pm);
         loaded_plugins := loaded_plugins pm |}
  end.

(** [PluginManager.__init__] *)
Definition new_plugin_manager (folder : string) (package : option PluginPackage)
  : PluginManager :=
  discover_plugins
    {| plugin_folder := folder; available_plugins := []; loaded_plugins := [] |}
    package.

(** *** Enabling and disabling *)

Definition enable_plugin (pm : PluginManager) (plugin_name : string)
  : bool * PluginManager :=
  match dict_get (available_plugins pm) plugin_name with
  | None => (false, pm)
  | Some info =>
      if negb (enabled info) then
        (true,
         {| plugin_folder := plugin_folder pm;
            available_plugins :=
              dict_set (available_plugins pm) plugin_name (set_enabled info true);
            loaded_plugins :=
              dict_set (loaded_plugins pm) plugin_name (instance info) |})
      else (true, pm)
  end.

Definition disable_plugin (pm : PluginManager) (plugin_name : string)
  : bool * PluginManager :=
  match dict_get (available_plugins pm) plugin_name with
  | None => (false, pm)
  | Some info =>
      if enabled info then
        (true,
         {| plugin_folder := plugin_folder pm;
            available_plugins :=
              dict_set (available_plugins pm) plugin_name (set_enabled info false);
            loaded_plugins :=
              if dict_contains (loaded_plugins pm) plugin_name
              then dict_del (loaded_plugins pm) plugin_name
              else loaded_plugins pm |})
      else (true, pm)
  end.

(** Returns [(success, now_enabled)]. *)
Definition toggle_plugin (pm : PluginManager) (plugin_name : string)
  : (bool * bool) * PluginManager :=
  match dict_get (available_plugins pm) plugin_name with
  | None => ((false, false), pm)
  | Some info =>
      if enabled info then
        let (success, pm') := disable_plugin pm plugin_name in
        ((success, false), pm')
      else
        let (success, pm') := enable_plugin pm plugin_name in
        ((success, true), pm')
  end.

Definition get_enabled_plugins (pm : PluginManager) : list string :=
  map fst (filter (fun item => enabled (snd item)) (available_plugins pm)).

(** The registry invariant: both dicts have unique keys, the keys of
    [loaded_plugins] are exactly the names whose descriptor is enabled, and
    every stored instance is a real object. *)
Definition registry_consistent (pm : PluginManager) : Prop :=
  NoDup (keys (available_plugins pm)) /\
  NoDup (keys (loaded_plugins pm)) /\
  (forall n, In n (keys (loaded_plugins pm)) <->
             exists info, dict_get (available_plugins pm) n = Some info /\
                          enabled info = true) /\
  (forall n i, In (n, i) (loaded_plugins pm) -> i <> None) /\
  (forall n info, dict_get (available_plugins pm) n = Some info ->
                  instance info <> None).

(** No name occurs twice. *)
Fixpoint distinct (names : list string) : bool :=
  match names with
  | [] => true
  | n :: rest => (negb (existsb (String.eqb n) rest) && distinct rest)%bool
  end.

(** The invariant as a test that can be run on a given registry. *)
Definition registry_check (pm : PluginManager) : bool :=
  (distinct (keys (available_plugins pm)) &&
   distinct (keys (loaded_plugins pm)) &&
   forallb (fun item : string * PluginInfo =>
              match instance (snd item) with Some _ => true | None => false end &&
              Bool.eqb (enabled (snd item))
                (dict_contains (loaded_plugins pm) (fst item)))
           (available_plugins pm) &&
   forallb (fun item : string * option Instance =>
              match snd item with Some _ => true | None => false end &&
              dict_contains (available_plugins pm) (fst item))
           (loaded_plugins pm))%bool.

(** Whether discovery registers the file [n]. *)
Definition registers (pkg : PluginPackage) (n : string) : bool :=
  (negb (startswith_dunder n) &&
   match import_module pkg n with Loaded _ => true | _ => false end)%bool.

(** *** Reporting *)

(** [available_plugins[n].enabled], false for a name that is not registered. *)
Definition is_enabled (pm : PluginManager) (plugin_name : string) : bool :=
  match dict_get (available_plugins pm) plugin_name with
  | Some info => enabled info
  | None => false
  end.

(** The dict that [get_plugin_info] builds. *)
Record PluginInfoDict : Type := {
  info_name : string;
  info_display_name : string;
  info_description : string;
  info_version : string;
  info_category : string;
  info_enabled : bool;
  info_requires_keypoints : bool;
  info_requires_hands : bool
}.

Definition info_dict (plugin : PluginInfo) : PluginInfoDict :=
  {| info_name := name plugin;
     info_display_name := display_name plugin;
     info_description := description plugin;
     info_version := version plugin;
     info_category := category plugin;
     info_enabled := enabled plugin;
     info_requires_keypoints := requires_keypoints plugin;
     info_requires_hands := requires_hands plugin |}.

Definition get_plugin_info (pm : PluginManager) (plugin_name : string)
  : option PluginInfoDict :=
  match dict_get (available_plugins pm) plugin_name with
  | None => None
  | Some plugin => Some (info_dict plugin)
  end.

Definition get_all_plugins_info (pm : PluginManager) : list (option PluginInfoDict) :=
  map (fun plugin_name => get_plugin_info pm plugin_name) (keys (available_plugins pm)).

(** *** Startup: the plugins enabled by default *)

Definition default_plugins : list string := ["finger_count"; "raise"].

(** The [for plugin_name in default_plugins] loop of the main block. *)
Definition enable_default_plugins (pm : PluginManager) : PluginManager :=
  fold_left
    (fun pm plugin_name =>
       if dict_contains (available_plugins pm) plugin_name
       then snd (enable_plugin pm plugin_name)
       else pm)
    default_plugins pm.

End PluginSystem.

Arguments Instance : clear implicits.
Arguments PluginInfo : clear implicits.
Arguments PluginManager : clear implicits.
Arguments ModuleLoad : clear implicits.
Arguments PluginPackage : clear implicits.

(* ================================================================== *)
(** ** Dispatch: [PluginManager.run_plugins] *)

(** What a dispatch leaves behind besides its return value: each call of a
    plugin's [run] and each exception caught (and printed) by the handler. *)
Inductive Event : Type :=
| EvRun (plugin_name : string)
| EvPluginError (plugin_name : string) (e : exn).

Section Pipeline.

Context {World : Type}.

(** Two builtins are left to the interpreter: [int(s)] on a string and the
    [repr] of a tuple or list (the [str] of such a value), each with [None]
    where it raises. *)
Context (builtin_int_of_str : string -> option Z).
Context (builtin_repr : PyVal -> option string).

(** [str(v)] *)
Definition py_str (v : PyVal) : result string :=
  match v with
  | PyStr s => Ok s
  | PyInt z =>
      if Nat.ltb int_max_str_digits (decimal_digits z) then Raise StrError
      else Ok (str_of_Z z)
  | PyBool true => Ok "True"
  | PyBool false => Ok "False"
  | PyNone => Ok "None"
  | PyTuple _ | PyList _ =>
      match builtin_repr v with Some s => Ok s | None => Raise StrError end
  | PyObject _ (Some s) _ _ => Ok s
  | PyObject _ None _ _ => Raise StrError
  end.

(** [int(v)] *)
Definition py_int (v : PyVal) : result Z :=
  match v with
  | PyInt z => Ok z
  | PyBool true => Ok 1
  | PyBool false => Ok 0
  | PyStr s =>
      match builtin_int_of_str s with Some z => Ok z | None => Raise IntError end
  | PyNone | PyTuple _ | PyList _ => Raise IntError
  | PyObject _ _ (Some z) _ => Ok z
  | PyObject _ _ None _ => Raise IntError
  end.

(** [tuple(int(c) for c in color)]: stops at the first component that
    raises. *)
Fixpoint int_tuple (color : list PyVal) : result (list Z) :=
  match color with
  | [] => Ok []
  | c :: rest =>
      match py_int c with
      | Raise e => Raise e
      | Ok z =>
          match int_tuple rest with
          | Raise e => Raise e
          | Ok zs => Ok (z :: zs)
          end
      end
  end.

(** The state of one [run_plugins] call. *)
Record Dispatch : Type := {
  world : World;
  annotated : Image;
  messages : list string;
  colors : list (list Z);
  trace : list Event
}.

(** [plugin_instance.run(frame, annotated, kpts, hand_res)] *)
Definition call_run (plugin_instance : option (Instance World)) (w : World)
    (frame annotated : Image) (kpts : option KeypointSet) (hand_res : HandResult)
  : World * Image * result PyVal :=
  match plugin_instance with
  | None => (w, annotated, Raise NoRunAttribute)
  | Some inst => run inst w frame annotated kpts hand_res
  end.

(** [msg and color and isinstance(color, (tuple, list)) and len(color) == 3]:
    the operands are tested from left to right, up to the first false one;
    with the value, the items of [color] when the test holds. *)
Definition accepted (msg color : PyVal) : result (option (list PyVal)) :=
  match truthy msg with
  | Raise e => Raise e
  | Ok false => Ok None
  | Ok true =>
      match truthy color with
      | Raise e => Raise e
      | Ok false => Ok None
      | Ok true =>
          match tuple_or_list color with
          | Some items =>
              if Nat.eqb (List.length items) 3 then Ok (Some items) else Ok None
          | None => Ok None
          end
      end
  end.

(** The rest of the [try] body, after the call: the two lists as the body
    leaves them and the exception that ended it, if any.  The argument of
    [messages.append] may raise, and so may that of [colors.append], which
    comes second. *)
Definition collect (returned : result PyVal)
    (messages : list string) (colors : list (list Z))
  : list string * list (list Z) * option exn :=
  match returned with
  | Raise e => (messages, colors, Some e)
  | Ok v =>
      match unpack2 v with
      | Raise e => (messages, colors, Some e)
      | Ok (msg, color) =>
          match accepted msg color with
          | Raise e => (messages, colors, Some e)
          | Ok None => (messages, colors, None)
          | Ok (Some items) =>
              match py_str msg with
              | Raise e => (messages, colors, Some e)
              | Ok text =>
                  let messages' := messages ++ [text] in
                  match int_tuple items with
                  | Ok rgb => (messages', colors ++ [rgb], None)
                  | Raise e => (messages', colors, Some e)
                  end
              end
          end
      end
  end.

(** One turn of [for plugin_name, plugin_instance in self.loaded_plugins.items()]. *)
Definition run_plugin (frame : Image) (kpts : option KeypointSet)
    (hand_res : HandResult) (d : Dispatch) (item : string * option (Instance World))
  : Dispatch :=
  let (plugin_name, plugin_instance) := item in
  let '(w, ann, returned) :=
    call_run plugin_instance (world d) frame (annotated d) kpts hand_res in
  let called :=
    match plugin_instance with Some _ => [EvRun plugin_name] | None => [] end in
  let '(msgs, cols, raised) := collect returned (messages d) (colors d) in
  let caught :=
    match raised with Some e => [EvPluginError plugin_name e] | None => [] end in
  {| world := w; annotated := ann; messages := msgs; colors := cols;
     trace := trace d ++ called ++ caught |}.

Definition run_items (frame : Image) (kpts : option KeypointSet)
    (hand_res : HandResult) (items : dict (option (Instance World))) (d : Dispatch)
  : Dispatch :=
  fold_left (run_plugin frame kpts hand_res) items d.

(** The state in which [run_plugins] starts: [messages, colors = [], []]. *)
Definition fresh (w : World) (annotated : Image) : Dispatch :=
  {| world := w; annotated := annotated; messages := []; colors := []; trace := [] |}.

(** [run_plugins]: the returned pair is [(messages d, colors d)]; [annotated]
    has been drawn on in place. *)
Definition run_plugins (pm : PluginManager World) (w : World)
    (frame annotated : Image) (kpts : option KeypointSet) (hand_res : HandResult)
  : Dispatch :=
  run_items frame kpts hand_res (loaded_plugins pm) (fresh w annotated).

(** [r] continued from the accumulators of [d]. *)
Definition extend (d r : Dispatch) : Dispatch :=
  {| world := world r; annotated := annotated r;
     messages := messages d ++ messages r;
     colors := colors d ++ colors r;
     trace := trace d ++ trace r |}.

(** The plugins whose [run] was called, in call order. *)
Definition invoked (events : list Event) : list string :=
  flat_map (fun ev => match ev with EvRun n => [n] | EvPluginError _ _ => [] end) events.

(* ================================================================== *)
(** ** The detection loop *)

(** [results[0]] of the pose model: its two accessors may raise. *)
Record PoseResults : Type := {
  plot : result Image;
  keypoints_data : result (list KeypointSet)
}.

(** What the loop meets during one iteration: the running flag and the
    camera as the [while] test sees them, the frame read ([None] when [ret]
    is false), the detectors and the registry as control requests have left
    it. *)
Record FrameEnv : Type := {
  is_detection_running : bool;
  cap_isOpened : bool;
  cap_read : option Image;
  model : Image -> result (list PoseResults);
  hands_process : Image -> result HandResult;
  cuda_is_available : bool;
  plugin_manager : PluginManager World
}.

Record Status : Type := {
  st_frame_count : Z;
  st_person_detected : bool;
  st_hands_detected : bool;
  st_plugin_count : nat;
  st_device : string;
  st_resolution : string;
  st_plugins : list string;
  st_plugins_loaded : nat;
  st_total_plugins : nat;
  st_model_loaded : string;
  st_camera : string
}.

(** The module-level variables shared with the HTTP handlers;
    [current_status] starts as the empty dict. *)
Record Globals : Type := {
  current_frame : option Image;
  current_messages : list string;
  current_status : option Status
}.

Definition initial_globals : Globals :=
  {| current_frame := None; current_messages := []; current_status := None |}.

(** [arr[0] if len(arr) else None] *)
Definition first_person (arr : list KeypointSet) : option KeypointSet :=
  match arr with
  | [] => None
  | person :: _ => Some person
  end.

(** The YOLO block of the loop body. *)
Definition infer_pose (env : FrameEnv) (frame_small : Image)
  : Image * option KeypointSet :=
  match model env frame_small with
  | Raise _ => (frame_small, None)
  | Ok [] => (frame_small, None)
  | Ok (r :: _) =>
      match plot r with
      | Raise _ => (frame_small, None)
      | Ok plotted =>
          (plotted,
           match keypoints_data r with
           | Ok arr => first_person arr
           | Raise _ => None
           end)
      end
  end.

Definition draw_hands (annotated : Image) (hand_res : HandResult) : Image :=
  match multi_hand_landmarks hand_res with
  | Some hand_list => fold_left ImHand hand_list annotated
  | None => annotated
  end.

Definition is_some {A} (o : option A) : bool :=
  match o with Some _ => true | None => false end.

Definition ui_overlays (annotated : Image) (frame_count : Z) (active : nat) : Image :=
  ImText
    (ImText
       (ImText annotated "Live Detection" 10 30)
       ("Frame: " ++ str_of_Z frame_count)%string 10 (TARGET_HEIGHT - 20))
    ("Plugins: " ++ str_of_Z (Z.of_nat active) ++ " active")%string
    10 (TARGET_HEIGHT - 40).

Definition make_status (env : FrameEnv) (frame_count : Z)
    (kpts : option KeypointSet) (hand_res : HandResult) (plugin_msgs : list string)
  : Status :=
  {| st_frame_count := frame_count;
     st_person_detected := is_some kpts;
     st_hands_detected := is_some (multi_hand_landmarks hand_res);
     st_plugin_count := List.length plugin_msgs;
     st_device := if cuda_is_available env then "GPU" else "CPU";
     st_resolution := (str_of_Z TARGET_WIDTH ++ "x" ++ str_of_Z TARGET_HEIGHT)%string;
     st_plugins := get_enabled_plugins (plugin_manager env);
     st_plugins_loaded := List.length (get_enabled_plugins (plugin_manager env));
     st_total_plugins := List.length (available_plugins (plugin_manager env));
     st_model_loaded := "Yes";
     st_camera := "Connected" |}.

(** The three assignments that publish a cycle, in program order. *)
Definition store_frame (g : Globals) (annotated : Image) : Globals :=
  {| current_frame := Some annotated;
     current_messages := current_messages g;
     current_status := current_status g |}.

Definition store_messages (g : Globals) (plugin_msgs : list string) : Globals :=
  {| current_frame := current_frame g;
     current_messages := plugin_msgs;
     current_status := current_status g |}.

Definition store_status (g : Globals) (status : Status) : Globals :=
  {| current_frame := current_frame g;
     current_messages := current_messages g;
     current_status := Some status |}.

(** What one iteration assigns to the three globals. *)
Record CycleOutput : Type := {
  out_frame : Image;
  out_messages : list string;
  out_status : Status
}.

Definition publish (g : Globals) (out : CycleOutput) : Globals :=
  store_status
    (store_messages (store_frame g (out_frame out)) (out_messages out))
    (out_status out).

Record LoopState : Type := {
  frame_count : Z;
  globals : Globals;
  loop_world : World;
  loop_trace : list Event
}.

Inductive Iteration : Type :=
| Stop                       (* the [while] test failed *)
| NoFrame                    (* [ret] was false: sleep and [continue] *)
| Cycle (s : LoopState)      (* the body ran to its end *)
| Abort (s : LoopState) (e : exn).
    (* an exception left the body: [s] is the state it leaves behind *)

(** One evaluation of the [while] test and the loop body. *)
Definition loop_body (env : FrameEnv) (s : LoopState) : Iteration :=
  if negb (is_detection_running env && cap_isOpened env)%bool then Stop
  else
    match cap_read env with
    | None => NoFrame
    | Some frame =>
        let frame_count := frame_count s + 1 in
        let frame_small := ImResize frame TARGET_WIDTH TARGET_HEIGHT in
        let (plotted, kpts) := infer_pose env frame_small in
        let rgb := ImCvtRGB frame_small in
        match hands_process env rgb with
        | Raise e =>
            Abort {| frame_count := frame_count; globals := globals s;
                     loop_world := loop_world s; loop_trace := loop_trace s |} e
        | Ok hand_res =>
            let with_hands := draw_hands plotted hand_res in
            let d :=
              run_plugins (plugin_manager env) (loop_world s)
                frame_small with_hands kpts hand_res in
            let final :=
              ui_overlays (annotated d) frame_count
                (List.length (get_enabled_plugins (plugin_manager env))) in
            let g := store_frame (globals s) final in
            let g := store_messages g (messages d) in
            let g :=
              store_status g (make_status env frame_count kpts hand_res (messages d)) in
            Cycle {| frame_count := frame_count; globals := g;
                     loop_world := world d;
                     loop_trace := loop_trace s ++ trace d |}
        end
    end.

Inductive Termination : Type :=
| Exited                     (* the [while] test failed *)
| Crashed (e : exn)          (* the thread died with an exception *)
| Running.                   (* the recorded environment ends here *)

(** The frames that the loop has counted without publishing them: the
    frame in process when an exception ended the loop. *)
Definition unpublished_frames (t : Termination) : Z :=
  match t with
  | Crashed _ => 1
  | Exited | Running => 0
  end.

(** [detection_loop] over a finite record of what each iteration meets. *)
Fixpoint detection_loop (envs : list FrameEnv) (s : LoopState)
  : LoopState * Termination :=
  match envs with
  | [] => (s, Running)
  | env :: later =>
      match loop_body env s with
      | Stop => (s, Exited)
      | NoFrame => detection_loop later s
      | Cycle s' => detection_loop later s'
      | Abort s' e => (s', Crashed e)
      end
  end.

Definition initial_loop_state (w : World) : LoopState :=
  {| frame_count := 0; globals := initial_globals; loop_world := w; loop_trace := [] |}.

(** The dispatch of the iteration that reads [frame] and detects
    [hand_res]. *)
Definition cycle_dispatch (env : FrameEnv) (s : LoopState)
    (frame : Image) (hand_res : HandResult) : Dispatch :=
  let frame_small := ImResize frame TARGET_WIDTH TARGET_HEIGHT in
  run_plugins (plugin_manager env) (loop_world s) frame_small
    (draw_hands (fst (infer_pose env frame_small)) hand_res)
    (snd (infer_pose env frame_small)) hand_res.

(** What that iteration assigns to the globals. *)
Definition cycle_output (env : FrameEnv) (s : LoopState)
    (frame : Image) (hand_res : HandResult) : CycleOutput :=
  let frame_small := ImResize frame TARGET_WIDTH TARGET_HEIGHT in
  let d := cycle_dispatch env s frame hand_res in
  {| out_frame :=
       ui_overlays (annotated d) (frame_count s + 1)
         (List.length (get_enabled_plugins (plugin_manager env)));
     out_messages := messages d;
     out_status :=
       make_status env (frame_count s + 1) (snd (infer_pose env frame_small))
         hand_res (messages d) |}.

(* ================================================================== *)
(** ** Readers of the published globals *)

(** The JSON document of [GET /api/status]. *)
Record StatusDocument : Type := {
  doc_messages : list string;
  doc_status : option Status;
  doc_colors : list (list Z)
}.

Definition status_colors (messages : list string) : list (list Z) :=
  match messages with
  | [] => []
  | _ :: _ => [[255; 75; 43]]
  end.

(** [get_status]: the dict display loads [current_messages],
    [current_status] and [current_messages] again; the document is made of
    the three values loaded, which other threads may have assigned in
    between. *)
Definition get_status (messages_loaded : list string)
    (status_loaded : option Status) (messages_loaded_again : list string)
  : StatusDocument :=
  {| doc_messages := messages_loaded;
     doc_status := status_loaded;
     doc_colors := status_colors messages_loaded_again |}.

End Pipeline.

Arguments Dispatch : clear implicits.
Arguments FrameEnv : clear implicits.
Arguments LoopState : clear implicits.
Arguments Iteration : clear implicits.

(* ================================================================== *)
(** ** Threads: the producer and the readers, interleaved

    The detection thread publishes a cycle with three separate assignments
    to module globals; the HTTP handlers read those globals with separate
    loads and take no lock.  One step of a thread is one such load or
    store; a schedule says which thread moves next. *)

Inductive PublishPc : Type := AtFrame | AtMessages | AtStatus.

(** The detection thread: the outputs of the iterations still to publish
    and the next assignment of the first of them. *)
Record Producer : Type := {
  pending : list CycleOutput;
  publish_pc : PublishPc
}.

Definition producer_step (g : Globals) (p : Producer) : Globals * Producer :=
  match pending p with
  | [] => (g, p)
  | out :: later =>
      match publish_pc p with
      | AtFrame =>
          (store_frame g (out_frame out),
           {| pending := pending p; publish_pc := AtMessages |})
      | AtMessages =>
          (store_messages g (out_messages out),
           {| pending := pending p; publish_pc := AtStatus |})
      | AtStatus =>
          (store_status g (out_status out),
           {| pending := later; publish_pc := AtFrame |})
      end
  end.

(** A [get_status] request: the dict display evaluates [current_messages],
    [current_status] and [current_messages] again, in that order. *)
Inductive StatusPc : Type :=
| LoadMessages | LoadStatus | LoadMessagesAgain | Responded.

Record StatusRequest : Type := {
  status_pc : StatusPc;
  response : StatusDocument
}.

Definition empty_document : StatusDocument :=
  {| doc_messages := []; doc_status := None; doc_colors := [] |}.

Definition status_step (g : Globals) (r : StatusRequest) : StatusRequest :=
  let doc := response r in
  match status_pc r with
  | LoadMessages =>
      {| status_pc := LoadStatus;
         response := {| doc_messages := current_messages g;
                        doc_status := doc_status doc;
                        doc_colors := doc_colors doc |} |}
  | LoadStatus =>
      {| status_pc := LoadMessagesAgain;
         response := {| doc_messages := doc_messages doc;
                        doc_status := current_status g;
                        doc_colors := doc_colors doc |} |}
  | LoadMessagesAgain =>
      {| status_pc := Responded;
         response := {| doc_messages := doc_messages doc;
                        doc_status := doc_status doc;
                        doc_colors := status_colors (current_messages g) |} |}
  | Responded => r
  end.

(** A [generate_frames] generator: test [current_frame], load it again to
    encode it, yield, repeat.  Encoding is taken to succeed and the yielded
    part is identified with the frame it encodes; encoding [None] raises and
    ends the generator. *)
Inductive VideoPc : Type := TestFrame | EncodeFrame | Broken.

Record VideoStream : Type := {
  video_pc : VideoPc;
  yielded : list Image
}.

Definition video_step (g : Globals) (v : VideoStream) : VideoStream :=
  match video_pc v with
  | TestFrame =>
      if is_some (current_frame g)
      then {| video_pc := EncodeFrame; yielded := yielded v |}
      else v
  | EncodeFrame =>
      match current_frame g with
      | Some frame => {| video_pc := TestFrame; yielded := yielded v ++ [frame] |}
      | None => {| video_pc := Broken; yielded := yielded v |}
      end
  | Broken => v
  end.

Inductive Thread : Type := DetectionThread | StatusHandler | VideoHandler.

Record System : Type := {
  shared : Globals;
  producer : Producer;
  status_request : StatusRequest;
  video : VideoStream
}.

Definition step (sys : System) (t : Thread) : System :=
  match t with
  | DetectionThread =>
      let (g, p) := producer_step (shared sys) (producer sys) in
      {| shared := g; producer := p;
         status_request := status_request sys; video := video sys |}
  | StatusHandler =>
      {| shared := shared sys; producer := producer sys;
         status_request := status_step (shared sys) (status_request sys);
         video := video sys |}
  | VideoHandler =>
      {| shared := shared sys; producer := producer sys;
         status_request := status_request sys;
         video := video_step (shared sys) (video sys) |}
  end.

Definition run_schedule (schedule : list Thread) (sys : System) : System :=
  fold_left step schedule sys.

Definition initial_system (outs : list CycleOutput) : System :=
  {| shared := initial_globals;
     producer := {| pending := outs; publish_pc := AtFrame |};
     status_request := {| status_pc := LoadMessages; response := empty_document |};
     video := {| video_pc := TestFrame; yielded := [] |} |}.

(** The outputs that [detection_loop] publishes, one per completed cycle. *)
Definition output_of {World} (s : LoopState World) : list CycleOutput :=
  match current_frame (globals s), current_status (globals s) with
  | Some frame, Some status =>
      [{| out_frame := frame;
          out_messages := current_messages (globals s);
          out_status := status |}]
  | _, _ => []
  end.

Fixpoint published {World} (int_of_str : string -> option Z) (repr : PyVal -> option string)
    (envs : list (FrameEnv World)) (s : LoopState World) : list CycleOutput :=
  match envs with
  | [] => []
  | env :: later =>
      match loop_body int_of_str repr env s with
      | Stop => []
      | NoFrame => published int_of_str repr later s
      | Cycle s' => output_of s' ++ published int_of_str repr later s'
      | Abort _ _ => []
      end
  end.

Definition frame_of_a_cycle (outs : list CycleOutput) (frame : Image) : Prop :=
  exists out, In out outs /\ frame = out_frame out.

Definition messages_of_a_cycle (outs : list CycleOutput) (msgs : list string)
  : Prop :=
  msgs = [] \/ exists out, In out outs /\ msgs = out_messages out.

Definition status_of_a_cycle (outs : list CycleOutput) (status : option Status)
  : Prop :=
  status = None \/ exists out, In out outs /\ status = Some (out_status out).

(** Each global, each field of the response being assembled and each frame
    yielded so far is the initial value or was assigned by one iteration. *)
Definition cyclewise (outs : list CycleOutput) (sys : System) : Prop :=
  incl (pending (producer sys)) outs /\
  (forall frame, current_frame (shared sys) = Some frame -> frame_of_a_cycle outs frame) /\
  messages_of_a_cycle outs (current_messages (shared sys)) /\
  status_of_a_cycle outs (current_status (shared sys)) /\
  messages_of_a_cycle outs (doc_messages (response (status_request sys))) /\
  status_of_a_cycle outs (doc_status (response (status_request sys))) /\
  (forall frame, In frame (yielded (video sys)) -> frame_of_a_cycle outs frame).

(** The colors of the response being assembled are those of some value of
    [current_messages]: the initial one or the messages of one iteration. *)
Definition status_loads (outs : list CycleOutput) (sys : System) : Prop :=
  cyclewise outs sys /\
  exists loaded,
    messages_of_a_cycle outs loaded /\
    doc_colors (response (status_request sys)) = status_colors loaded.

(** What the specification asks of a status document: its messages and its
    status come from one and the same cycle (or nothing is published yet). *)
Definition single_cycle_document (outs : list CycleOutput) (doc : StatusDocument)
  : Prop :=
  (doc_messages doc = [] /\ doc_status doc = None) \/
  exists out, In out outs /\
              doc_messages doc = out_messages out /\
              doc_status doc = Some (out_status out).

(* ================================================================== *)
(** ** The plugin routes of the HTTP interface *)

Module Routes.

Section Routes.

Context {World : Type}.

(** [GET /api/plugins] *)
Record PluginsDocument : Type := {
  plugins_list : list (option PluginInfoDict);
  plugins_total : nat;
  plugins_enabled : nat
}.

Definition get_plugins (pm : PluginManager World) : PluginsDocument :=
  let plugins_info := get_all_plugins_info pm in
  {| plugins_list := plugins_info;
     plugins_total := List.length plugins_info;
     plugins_enabled := List.length (get_enabled_plugins pm) |}.

(** [POST /api/plugins/toggle]; the request carries [plugin_name] or not. *)
Inductive ToggleDocument : Type :=
| Toggled (now_enabled : bool) (message : string)
| NotToggled (message : string).

Definition toggle_plugin (pm : PluginManager World) (plugin_name : option string)
  : ToggleDocument * PluginManager World :=
  match plugin_name with
  | None => (NotToggled "Plugin name required", pm)
  | Some requested =>
      if String.eqb requested "" then (NotToggled "Plugin name required", pm)
      else
        let '((success, now_enabled), pm') := toggle_plugin pm requested in
        if success then
          (Toggled now_enabled
             ("Plugin " ++ (if now_enabled then "enabled" else "disabled")
              ++ " successfully")%string,
           pm')
        else (NotToggled "Plugin not found", pm')
  end.

(** [POST /api/plugins/toggle_all] *)
Record ToggleAllDocument : Type := {
  all_success : bool;
  all_count : nat;
  all_enabled : bool
}.

(** One turn of the loop over the plugin names. *)
Definition toggle_all_step (enable : bool)
    (acc : PluginManager World * nat) (plugin_name : string)
  : PluginManager World * nat :=
  let (pm, success_count) := acc in
  let (success, pm') :=
    if enable then enable_plugin pm plugin_name else disable_plugin pm plugin_name in
  (pm', if success then S success_count else success_count).

Definition toggle_all_plugins (pm : PluginManager World) (enable : bool)
  : ToggleAllDocument * PluginManager World :=
  let plugin_names := keys (available_plugins pm) in
  let (pm', success_count) :=
    fold_left (toggle_all_step enable) plugin_names (pm, 0%nat) in
  ({| all_success := Nat.ltb 0 success_count;
      all_count := success_count;
      all_enabled := enable |},
   pm').

(** [GET /api/plugins/<plugin_name>] *)
Inductive PluginDocument : Type :=
| PluginFound (plugin : PluginInfoDict)
| PluginNotFound (message : string).

Definition get_plugin_info (pm : PluginManager World) (plugin_name : string)
  : PluginDocument :=
  match get_plugin_info pm plugin_name with
  | Some info => PluginFound info
  | None => PluginNotFound "Plugin not found"
  end.

End Routes.

End Routes.

(* ================================================================== *)
(** ** The dispatch of [run_Application.py] and [run_demo.py]

    These two programs keep the plugin instances in a plain list built at
    startup and run them with a module-level [run_plugins]; the handler
    prints the class name of the plugin. *)

Section StaticDispatch.

Context {World : Type}.
Context (builtin_int_of_str : string -> option Z).
Context (builtin_repr : PyVal -> option string).

(** [plugin.__class__.__name__] *)
Context (class_name : Instance World -> string).

Definition run_listed_plugin (frame : Image) (kpts : option KeypointSet)
    (hand_res : HandResult) (d : Dispatch World) (plugin : Instance World)
  : Dispatch World :=
  let '(w, ann, returned) := run plugin (world d) frame (annotated d) kpts hand_res in
  let '(msgs, cols, raised) :=
    collect builtin_int_of_str builtin_repr returned (messages d) (colors d) in
  let caught :=
    match raised with
    | Some e => [EvPluginError (class_name plugin) e]
    | None => []
    end in
  {| world := w; annotated := ann; messages := msgs; colors := cols;
     trace := trace d ++ [EvRun (class_name plugin)] ++ caught |}.

Definition run_listed_plugins (plugins : list (Instance World)) (w : World)
    (frame annotated : Image) (kpts : option KeypointSet) (hand_res : HandResult)
  : Dispatch World :=
  fold_left (run_listed_plugin frame kpts hand_res) plugins (fresh w annotated).

End StaticDispatch.

(* ================================================================== *)
(** ** Predicates on what is published *)

(** The three globals come from one and the same iteration, or nothing is
    published yet. *)
Definition coherent_globals (outs : list CycleOutput) (g : Globals) : Prop :=
  g = initial_globals \/
  exists out, In out outs /\
              current_frame g = Some (out_frame out) /\
              current_messages g = out_messages out /\
              current_status g = Some (out_status out).

(** Where the detection thread stands in the publication of a cycle, and
    what the globals hold there. *)
Definition publishing (outs : list CycleOutput) (sys : System) : Prop :=
  incl (pending (producer sys)) outs /\
  match publish_pc (producer sys) with
  | AtFrame => coherent_globals outs (shared sys)
  | AtMessages =>
      exists out later,
        pending (producer sys) = out :: later /\
        current_frame (shared sys) = Some (out_frame out)
  | AtStatus =>
      exists out later,
        pending (producer sys) = out :: later /\
        current_frame (shared sys) = Some (out_frame out) /\
        current_messages (shared sys) = out_messages out
  end.

(** After [completed] cycles: nothing is published when there was none;
    otherwise the published status describes the published messages and
    carries the number of the last cycle. *)
Definition status_describes (completed : Z) (g : Globals) : Prop :=
  (completed = 0 /\ g = initial_globals) \/
  (0 < completed /\
   exists frame status,
     current_frame g = Some frame /\
     current_status g = Some status /\
     st_frame_count status = completed /\
     st_plugin_count status = List.length (current_messages g)).

(* ================================================================== *)
(** ** A small installation used in the examples *)

Module Demo.

(** The world of the examples counts the calls made into plugin code.  The
    builtins read plain decimal literals and print no sequence (no example
    converts another string or prints a tuple). *)
Definition int_of_str (s : string) : option Z :=
  option_map Z.of_int (NilZero.int_of_string s).

Definition repr (v : PyVal) : option string := Some "<sequence>".

Definition green : PyVal := PyTuple [PyInt 0; PyInt 255; PyInt 0].

Definition plugin_with
    (body : nat -> Image -> Image -> option KeypointSet -> HandResult ->
            nat * Image * result PyVal) : Instance nat :=
  {| attr_name := None; attr_description := None; attr_version := None;
     attr_category := None; attr_requires_keypoints := None;
     attr_requires_hands := None; run := body |}.

(** Returns [(text, green)] on every frame. *)
Definition says (text : string) : Instance nat :=
  plugin_with (fun w _ annotated _ _ => (S w, annotated, Ok (PyTuple [PyStr text; green]))).

(** Its message tells the first call from the later ones. *)
Definition counting : Instance nat :=
  plugin_with (fun w _ annotated _ _ =>
    (S w, annotated,
     Ok (PyTuple [PyStr (if Nat.eqb w 0 then "first" else "again"); green]))).

(** Draws, then raises. *)
Definition crashing : Instance nat :=
  plugin_with (fun w _ annotated _ _ =>
    (S w, ImPlot annotated [1], Raise (ExternalError "boom"))).

(** Returns a three-component color whose second component is [None]. *)
Definition miscolored : Instance nat :=
  plugin_with (fun w _ annotated _ _ =>
    (S w, annotated,
     Ok (PyTuple [PyStr "warn"; PyTuple [PyInt 255; PyNone; PyInt 0]]))).

(** Declares [requires_keypoints = True]. *)
Definition pose_only : Instance nat :=
  {| attr_name := Some "Pose Only"; attr_description := None; attr_version := None;
     attr_category := None; attr_requires_keypoints := Some true;
     attr_requires_hands := None;
     run := fun w _ annotated _ _ =>
              (S w, annotated, Ok (PyTuple [PyStr "pose checked"; green])) |}.

Definition package : PluginPackage nat :=
  {| plugin_files :=
       ["__init__"; "alpha"; "broken"; "beta"; "helper"; "crash"; "tint"; "pose";
        "count"];
     import_module := fun plugin_name =>
       if String.eqb plugin_name "alpha" then Loaded (says "alpha here")
       else if String.eqb plugin_name "beta" then Loaded (says "beta here")
       else if String.eqb plugin_name "crash" then Loaded crashing
       else if String.eqb plugin_name "tint" then Loaded miscolored
       else if String.eqb plugin_name "pose" then Loaded pose_only
       else if String.eqb plugin_name "count" then Loaded counting
       else if String.eqb plugin_name "broken"
            then ImportRaises (ExternalError "invalid syntax")
       else NoPluginClass |}.

Definition registry : PluginManager nat :=
  new_plugin_manager "posture_framework.plugins" (Some package).

(** The registry after enabling [names] one after the other. *)
Definition enabling (names : list string) : PluginManager nat :=
  fold_left (fun pm plugin_name => snd (enable_plugin pm plugin_name)) names registry.

Definition camera_frame : Image := ImCamera [0; 0; 0].
Definition frame_small : Image := ImResize camera_frame TARGET_WIDTH TARGET_HEIGHT.

Definition first_detected : KeypointSet := [(1, 2, 3)].
Definition second_detected : KeypointSet := [(4, 5, 6)].

Definition no_hands : HandResult := {| multi_hand_landmarks := None |}.

(** An iteration in which the camera delivers a frame, the pose model sees
    [people] and the hand detector sees no hand. *)
Definition frame_env (people : list KeypointSet) (pm : PluginManager nat)
  : FrameEnv nat :=
  {| is_detection_running := true;
     cap_isOpened := true;
     cap_read := Some camera_frame;
     model := fun image =>
       Ok [{| plot := Ok (ImPlot image [17]); keypoints_data := Ok people |}];
     hands_process := fun _ => Ok no_hands;
     cuda_is_available := false;
     plugin_manager := pm |}.

(** The same iteration, except that the hand detector raises. *)
Definition hands_fail_env (pm : PluginManager nat) : FrameEnv nat :=
  {| is_detection_running := true;
     cap_isOpened := true;
     cap_read := Some camera_frame;
     model := fun image =>
       Ok [{| plot := Ok (ImPlot image [17]); keypoints_data := Ok [first_detected] |}];
     hands_process := fun _ => Raise (ExternalError "hand detector failed");
     cuda_is_available := false;
     plugin_manager := pm |}.

(** The same iteration, except that the pose model raises. *)
Definition pose_fail_env (pm : PluginManager nat) : FrameEnv nat :=
  {| is_detection_running := true;
     cap_isOpened := true;
     cap_read := Some camera_frame;
     model := fun _ => Raise (ExternalError "pose model failed");
     hands_process := fun _ => Ok no_hands;
     cuda_is_available := false;
     plugin_manager := pm |}.

Definition loop_body := loop_body (World:=nat) int_of_str repr.
Definition detection_loop := detection_loop (World:=nat) int_of_str repr.
Definition run_plugins := run_plugins (World:=nat) int_of_str repr.
Definition published := published (World:=nat) int_of_str repr.

(** Two people in front of the camera, [alpha] and [beta] enabled. *)
Definition two_plugins : PluginManager nat := enabling ["alpha"; "beta"].

Definition after_one_frame : LoopState nat :=
  fst (detection_loop [frame_env [first_detected; second_detected] two_plugins]
         (initial_loop_state 0%nat)).

(** A status request served after that frame is published, and one whose
    first load comes before the publication and whose other two loads come
    after it. *)
Definition one_cycle_outputs : list CycleOutput :=
  published [frame_env [first_detected; second_detected] two_plugins]
    (initial_loop_state 0%nat).

Definition after_publication : list Thread :=
  [DetectionThread; DetectionThread; DetectionThread;
   StatusHandler; StatusHandler; StatusHandler].

Definition settled_document : StatusDocument :=
  response (status_request
    (run_schedule after_publication (initial_system one_cycle_outputs))).

Definition across_publication : list Thread :=
  [StatusHandler;
   DetectionThread; DetectionThread; DetectionThread;
   StatusHandler; StatusHandler].

Definition straddling_document : StatusDocument :=
  response (status_request
    (run_schedule across_publication (initial_system one_cycle_outputs))).

(** [beta] enabled before [alpha]. *)
Definition beta_first : PluginManager nat := enabling ["beta"; "alpha"].

(** Nobody in front of the camera, [pose] enabled. *)
Definition pose_enabled : PluginManager nat := enabling ["pose"].

Definition after_empty_frame : LoopState nat :=
  fst (detection_loop [frame_env [] pose_enabled] (initial_loop_state 0%nat)).

(** [crash] enabled between [alpha] and [beta]. *)
Definition with_crash : PluginManager nat := enabling ["alpha"; "crash"; "beta"].

(** Two frames with [count] enabled, and a status request served while the
    second cycle is being published: the detection thread has stored the
    frame and the messages of cycle 2, not yet its status. *)
Definition count_outputs : list CycleOutput :=
  published
    [frame_env [first_detected] (enabling ["count"]);
     frame_env [first_detected] (enabling ["count"])]
    (initial_loop_state 0%nat).

Definition mid_publish : list Thread :=
  [DetectionThread; DetectionThread; DetectionThread;
   DetectionThread; DetectionThread;
   StatusHandler; StatusHandler; StatusHandler].

Definition torn_document : StatusDocument :=
  response (status_request (run_schedule mid_publish (initial_system count_outputs))).

End Demo.

(* ================================================================== *)
(** * Properties *)

(** ** Dictionaries *)

Section DictFacts.

Context {V : Type}.
Implicit Types (d : dict V) (k : string) (v : V).

Lemma dict_get_none_iff d k : dict_get d k = None <-> ~ In k (keys d).
Proof.
  induction d as [| [k' v'] rest IH]; simpl.
  - tauto.
  - destruct (String.eqb_spec k k') as [-> | Hne].
    + split; [discriminate | intros H; exfalso; apply H; now left].
    + rewrite IH. split.
      * intros H [Heq | Hin]; [congruence | tauto].
      * tauto.
Qed.

Lemma dict_get_some_in d k v : dict_get d k = Some v -> In k (keys d).
Proof.
  intros H. destruct (in_dec string_dec k (keys d)) as [Hin | Hout]; [assumption |].
  apply dict_get_none_iff in Hout. congruence.
Qed.

Lemma in_keys_dict_get d k : In k (keys d) -> exists v, dict_get d k = Some v.
Proof.
  intros Hin. destruct (dict_get d k) as [v |] eqn:E; [now exists v |].
  apply dict_get_none_iff in E. contradiction.
Qed.

Lemma dict_contains_false d k : dict_contains d k = false <-> ~ In k (keys d).
Proof.
  unfold dict_contains. rewrite <- dict_get_none_iff.
  destruct (dict_get d k); split; intros; congruence.
Qed.

Lemma dict_get_set_same d k v : dict_get (dict_set d k v) k = Some v.
Proof.
  induction d as [| [k' v'] rest IH]; simpl.
  - now rewrite String.eqb_refl.
  - destruct (String.eqb_spec k k') as [-> | Hne]; simpl.
    + now rewrite String.eqb_refl.
    + destruct (String.eqb_spec k k'); [contradiction | exact IH].
Qed.

Lemma dict_get_set_other d k k0 v :
  k0 <> k -> dict_get (dict_set d k v) k0 = dict_get d k0.
Proof.
  intros Hne. induction d as [| [k' v'] rest IH]; simpl.
  - destruct (String.eqb_spec k0 k); [contradiction | reflexivity].
  - destruct (String.eqb_spec k k') as [-> | Hkk']; simpl.
    + destruct (String.eqb_spec k0 k'); [contradiction | reflexivity].
    + destruct (String.eqb_spec k0 k'); [reflexivity | exact IH].
Qed.

Lemma keys_dict_set_present d k v :
  In k (keys d) -> keys (dict_set d k v) = keys d.
Proof.
  induction d as [| [k' v'] rest IH]; simpl; [tauto |].
  intros Hin. destruct (String.eqb_spec k k') as [-> | Hne]; simpl.
  - reflexivity.
  - f_equal. apply IH. destruct Hin; [congruence | assumption].
Qed.

Lemma dict_set_absent d k v :
  ~ In k (keys d) -> dict_set d k v = d ++ [(k, v)].
Proof.
  induction d as [| [k' v'] rest IH]; simpl; [reflexivity |].
  intros Hout. destruct (String.eqb_spec k k') as [-> | Hne].
  - exfalso. apply Hout. now left.
  - f_equal. apply IH. tauto.
Qed.

Lemma in_keys_dict_set d k k0 v :
  In k0 (keys (dict_set d k v)) <-> k0 = k \/ In k0 (keys d).
Proof.
  induction d as [| [k' v'] rest IH]; simpl.
  - split; [intros [H | []]; now left | intros [H | []]; now left].
  - destruct (String.eqb_spec k k') as [-> | Hne]; simpl.
    + intuition congruence.
    + rewrite IH. intuition congruence.
Qed.

Lemma nodup_keys_dict_set d k v :
  NoDup (keys d) -> NoDup (keys (dict_set d k v)).
Proof.
  induction d as [| [k' v'] rest IH]; simpl; intros Hnd.
  - constructor; [tauto | constructor].
  - inversion Hnd as [| ? ? Hout Hrest]; subst.
    destruct (String.eqb_spec k k') as [-> | Hne]; simpl.
    + now constructor.
    + constructor; [| now apply IH].
      rewrite in_keys_dict_set. intros [Heq | Hin]; [congruence | contradiction].
Qed.

Lemma in_keys_dict_del d k k0 :
  NoDup (keys d) ->
  (In k0 (keys (dict_del d k)) <-> k0 <> k /\ In k0 (keys d)).
Proof.
  induction d as [| [k' v'] rest IH]; simpl; intros Hnd.
  - tauto.
  - inversion Hnd as [| ? ? Hout Hrest]; subst.
    destruct (String.eqb_spec k k') as [-> | Hne]; simpl.
    + split.
      * intros Hin. split; [intros -> ; contradiction | now right].
      * intros [Hne [Heq | Hin]]; [congruence | assumption].
    + rewrite (IH Hrest). intuition congruence.
Qed.

Lemma nodup_keys_dict_del d k :
  NoDup (keys d) -> NoDup (keys (dict_del d k)).
Proof.
  induction d as [| [k' v'] rest IH]; simpl; intros Hnd; [constructor |].
  inversion Hnd as [| ? ? Hout Hrest]; subst.
  destruct (String.eqb_spec k k') as [-> | Hne]; simpl; [assumption |].
  constructor; [| now apply IH].
  rewrite (in_keys_dict_del _ _ _ Hrest). tauto.
Qed.

Lemma dict_get_del_other d k k0 :
  k0 <> k -> dict_get (dict_del d k) k0 = dict_get d k0.
Proof.
  intros Hne. induction d as [| [k' v'] rest IH]; simpl; [reflexivity |].
  destruct (String.eqb_spec k k') as [-> | Hkk']; simpl.
  - destruct (String.eqb_spec k0 k'); [contradiction | reflexivity].
  - destruct (String.eqb_spec k0 k'); [reflexivity | exact IH].
Qed.

Lemma dict_get_in_pair d k v : dict_get d k = Some v -> In (k, v) d.
Proof.
  induction d as [| [k' v'] rest IH]; simpl; [discriminate |].
  destruct (String.eqb_spec k k') as [-> | Hne].
  - intros [= ->]. now left.
  - intros H. right. now apply IH.
Qed.

Lemma in_pair_dict_get d k v :
  NoDup (keys d) -> In (k, v) d -> dict_get d k = Some v.
Proof.
  induction d as [| [k' v'] rest IH]; simpl; intros Hnd Hin; [contradiction |].
  inversion Hnd as [| ? ? Hout Hrest]; subst.
  destruct Hin as [[= -> ->] | Hin].
  - now rewrite String.eqb_refl.
  - destruct (String.eqb_spec k k') as [-> | Hne].
    + exfalso. apply Hout. change k' with (fst (k', v)). now apply in_map.
    + now apply IH.
Qed.

End DictFacts.

Lemma in_dict_set {V} (d : dict V) k v x :
  In x (dict_set d k v) -> x = (k, v) \/ In x d.
Proof.
  induction d as [| [k' v'] rest IH]; simpl.
  - intros [H | []]. now left.
  - destruct (String.eqb_spec k k') as [-> | Hne]; simpl.
    + intros [H | H]; [now left | right; now right].
    + intros [H | H]; [right; now left |].
      destruct (IH H) as [Heq | Hin]; [now left | right; now right].
Qed.

Lemma in_dict_del {V} (d : dict V) k x : In x (dict_del d k) -> In x d.
Proof.
  induction d as [| [k' v'] rest IH]; simpl; [tauto |].
  destruct (String.eqb_spec k k') as [-> | Hne]; simpl.
  - intros H. now right.
  - intros [H | H]; [now left | right; now apply IH].
Qed.

(* ================================================================== *)
(** ** The registry *)

Section RegistryFacts.

Context {World : Type}.
Implicit Types (pm : PluginManager World) (info : PluginInfo World).

(** What one turn of the discovery loop leaves under the name [n]. *)
Lemma dict_get_discover_one (pkg : PluginPackage World) acc f n :
  dict_get (discover_one pkg acc f) n =
  if (String.eqb n f && negb (startswith_dunder n))%bool then
    match import_module pkg n with
    | Loaded inst => Some (make_plugin_info n inst)
    | _ => dict_get acc n
    end
  else dict_get acc n.
Proof.
  unfold discover_one. destruct (String.eqb_spec n f) as [<- | Hne]; simpl.
  - destruct (startswith_dunder n); simpl; [reflexivity |].
    destruct (import_module pkg n); try reflexivity.
    apply dict_get_set_same.
  - destruct (startswith_dunder f); [reflexivity |].
    destruct (import_module pkg f); try reflexivity.
    now apply dict_get_set_other.
Qed.

(** What discovery leaves under the name [n]. *)
Lemma dict_get_discover (pkg : PluginPackage World) files acc n :
  dict_get (fold_left (discover_one pkg) files acc) n =
  if (existsb (String.eqb n) files && negb (startswith_dunder n))%bool then
    match import_module pkg n with
    | Loaded inst => Some (make_plugin_info n inst)
    | _ => dict_get acc n
    end
  else dict_get acc n.
Proof.
  revert acc. induction files as [| f files IH]; intros acc; simpl.
  - reflexivity.
  - rewrite IH, dict_get_discover_one.
    destruct (String.eqb n f), (existsb (String.eqb n) files),
      (startswith_dunder n); simpl; try reflexivity;
      destruct (import_module pkg n); reflexivity.
Qed.

Lemma discover_keeps_shape (pkg : PluginPackage World) files acc :
  NoDup (keys acc) ->
  (forall n info, In (n, info) acc ->
                  enabled info = false /\ instance info <> None) ->
  let found := fold_left (discover_one pkg) files acc in
  NoDup (keys found) /\
  (forall n info, In (n, info) found ->
                  enabled info = false /\ instance info <> None).
Proof.
  revert acc. induction files as [| f files IH]; intros acc Hnd Hall; simpl.
  - now split.
  - apply IH.
    + unfold discover_one. destruct (startswith_dunder f); [assumption |].
      destruct (import_module pkg f); try assumption.
      now apply nodup_keys_dict_set.
    + intros n info Hin. unfold discover_one in Hin.
      destruct (startswith_dunder f); [now apply (Hall n) |].
      destruct (import_module pkg f); try now apply (Hall n).
      apply in_dict_set in Hin. destruct Hin as [[= -> ->] | Hin].
      * simpl. split; [reflexivity | discriminate].
      * now apply (Hall n).
Qed.

Lemma new_plugin_manager_consistent folder (package : option (PluginPackage World)) :
  registry_consistent (new_plugin_manager folder package).
Proof.
  destruct package as [pkg |]; unfold new_plugin_manager, discover_plugins; simpl.
  - destruct (discover_keeps_shape pkg (plugin_files pkg) []) as [Hnd Hall].
    + constructor.
    + intros n info [].
    + repeat split; simpl; try assumption; try constructor; try tauto.
      * intros (info & Hget & Hen).
        apply dict_get_in_pair in Hget. apply Hall in Hget. destruct Hget. congruence.
      * intros n info Hget. apply dict_get_in_pair in Hget. now apply Hall in Hget.
  - repeat split; simpl; try constructor; try tauto.
    + intros (info & Hget & _). discriminate.
    + discriminate.
Qed.

Lemma enable_plugin_consistent pm k :
  registry_consistent pm -> registry_consistent (snd (enable_plugin pm k)).
Proof.
  intros H. pose proof H as (Ha & Hl & Hiff & Hinst & Hav). unfold enable_plugin.
  destruct (dict_get (available_plugins pm) k) as [info |] eqn:Hget;
    [| exact H].
  destruct (enabled info) eqn:Hen; simpl; [exact H |].
  repeat split; simpl.
  - now apply nodup_keys_dict_set.
  - now apply nodup_keys_dict_set.
  - rewrite in_keys_dict_set. intros [-> | Hin].
    + eexists. split; [apply dict_get_set_same | reflexivity].
    + destruct (string_dec n k) as [-> | Hne].
      * eexists. split; [apply dict_get_set_same | reflexivity].
      * rewrite dict_get_set_other by assumption. now apply Hiff.
  - intros (info' & Hget' & Hen'). rewrite in_keys_dict_set.
    destruct (string_dec n k) as [-> | Hne]; [now left | right].
    rewrite dict_get_set_other in Hget' by assumption.
    apply Hiff. now exists info'.
  - intros n i Hin. apply in_dict_set in Hin. destruct Hin as [[= -> ->] | Hin].
    + now apply (Hav k).
    + now apply (Hinst n).
  - intros n info' Hget'. destruct (string_dec n k) as [-> | Hne].
    + rewrite dict_get_set_same in Hget'. injection Hget' as <-. simpl.
      now apply (Hav k).
    + rewrite dict_get_set_other in Hget' by assumption. now apply (Hav n).
Qed.

Lemma disable_plugin_consistent pm k :
  registry_consistent pm -> registry_consistent (snd (disable_plugin pm k)).
Proof.
  intros H. pose proof H as (Ha & Hl & Hiff & Hinst & Hav). unfold disable_plugin.
  destruct (dict_get (available_plugins pm) k) as [info |] eqn:Hget;
    [| exact H].
  destruct (enabled info) eqn:Hen; simpl; [| exact H].
  assert (Hk : In k (keys (loaded_plugins pm))) by (apply Hiff; now exists info).
  assert (Hc : dict_contains (loaded_plugins pm) k = true).
  { destruct (dict_contains (loaded_plugins pm) k) eqn:E; [reflexivity |].
    apply dict_contains_false in E. contradiction. }
  rewrite Hc. repeat split; simpl.
  - now apply nodup_keys_dict_set.
  - now apply nodup_keys_dict_del.
  - rewrite in_keys_dict_del by assumption. intros [Hne Hin].
    rewrite dict_get_set_other by assumption. now apply Hiff.
  - intros (info' & Hget' & Hen'). rewrite in_keys_dict_del by assumption.
    destruct (string_dec n k) as [-> | Hne].
    + rewrite dict_get_set_same in Hget'. injection Hget' as <-. discriminate.
    + rewrite dict_get_set_other in Hget' by assumption.
      split; [assumption | apply Hiff; now exists info'].
  - intros n i Hin. apply in_dict_del in Hin. now apply (Hinst n).
  - intros n info' Hget'. destruct (string_dec n k) as [-> | Hne].
    + rewrite dict_get_set_same in Hget'. injection Hget' as <-. simpl.
      now apply (Hav k).
    + rewrite dict_get_set_other in Hget' by assumption. now apply (Hav n).
Qed.

Lemma toggle_plugin_consistent pm k :
  registry_consistent pm -> registry_consistent (snd (toggle_plugin pm k)).
Proof.
  intros H. unfold toggle_plugin.
  destruct (dict_get (available_plugins pm) k) as [info |]; [| assumption].
  destruct (enabled info).
  - pose proof (disable_plugin_consistent pm k H) as Hd.
    destruct (disable_plugin pm k); assumption.
  - pose proof (enable_plugin_consistent pm k H) as He.
    destruct (enable_plugin pm k); assumption.
Qed.

(** [get_enabled_plugins] lists the names whose descriptor is enabled. *)
Lemma in_get_enabled_plugins pm n :
  NoDup (keys (available_plugins pm)) ->
  (In n (get_enabled_plugins pm) <->
   exists info, dict_get (available_plugins pm) n = Some info /\ enabled info = true).
Proof.
  intros Hnd. unfold get_enabled_plugins. rewrite in_map_iff. split.
  - intros ([n' info] & Hfst & Hin). simpl in Hfst. subst n'.
    apply filter_In in Hin. destruct Hin as [Hin Hen]. simpl in Hen.
    exists info. split; [now apply in_pair_dict_get | assumption].
  - intros (info & Hget & Hen). exists (n, info). split; [reflexivity |].
    apply filter_In. split; [now apply dict_get_in_pair | assumption].
Qed.

Lemma distinct_nodup (names : list string) : distinct names = true -> NoDup names.
Proof.
  induction names as [| n rest IH]; simpl; intros H; [constructor |].
  apply andb_true_iff in H. destruct H as [Hn Hrest].
  constructor; [| now apply IH].
  intros Hin. apply negb_true_iff in Hn.
  assert (Hex : existsb (String.eqb n) rest = true).
  { apply existsb_exists. exists n. split; [assumption | apply String.eqb_refl]. }
  congruence.
Qed.

Lemma dict_contains_true {V} (d : dict V) k :
  dict_contains d k = true <-> In k (keys d).
Proof.
  destruct (dict_contains d k) eqn:E.
  - split; [intros _ | reflexivity].
    destruct (in_dec string_dec k (keys d)) as [Hin | Hout]; [assumption |].
    apply dict_contains_false in Hout. congruence.
  - apply dict_contains_false in E. split; [discriminate | contradiction].
Qed.

(** A registry that passes the test is consistent. *)
Lemma registry_check_sound pm : registry_check pm = true -> registry_consistent pm.
Proof.
  unfold registry_check. intros H.
  apply andb_true_iff in H. destruct H as [H Hl].
  apply andb_true_iff in H. destruct H as [H Ha].
  apply andb_true_iff in H. destruct H as [Hda Hdl].
  apply distinct_nodup in Hda. apply distinct_nodup in Hdl.
  rewrite forallb_forall in Ha, Hl.
  assert (Havail : forall n info, dict_get (available_plugins pm) n = Some info ->
            instance info <> None /\
            enabled info = dict_contains (loaded_plugins pm) n).
  { intros n info Hget. apply dict_get_in_pair in Hget. apply Ha in Hget.
    simpl in Hget. apply andb_true_iff in Hget. destruct Hget as [Hi He].
    split.
    - destruct (instance info); [discriminate | discriminate].
    - now apply eqb_prop. }
  repeat split; try assumption.
  - intros Hin. apply in_map_iff in Hin. destruct Hin as ([n' i] & Hfst & Hin).
    simpl in Hfst. subst n'. pose proof (Hl _ Hin) as Hitem. simpl in Hitem.
    apply andb_true_iff in Hitem. destruct Hitem as [_ Hc].
    apply dict_contains_true in Hc. apply in_keys_dict_get in Hc.
    destruct Hc as [info Hget]. exists info. split; [assumption |].
    destruct (Havail n info Hget) as [_ ->]. apply dict_contains_true.
    change n with (fst (n, i)). now apply in_map.
  - intros (info & Hget & Hen). destruct (Havail n info Hget) as [_ He].
    apply dict_contains_true. congruence.
  - intros n i Hin. apply Hl in Hin. simpl in Hin.
    apply andb_true_iff in Hin. destruct Hin as [Hi _].
    destruct i; [discriminate | discriminate].
  - intros n info Hget. now apply (Havail n info).
Qed.

End RegistryFacts.

(* ================================================================== *)
(** ** Dispatch *)

Section DispatchFacts.

Context {World : Type}.
Context (int_of_str : string -> option Z) (repr : PyVal -> option string).

Lemma run_items_app frame kpts hand_res l1 l2 (d : Dispatch World) :
  run_items int_of_str repr frame kpts hand_res (l1 ++ l2) d =
  run_items int_of_str repr frame kpts hand_res l2 (run_items int_of_str repr frame kpts hand_res l1 d).
Proof. apply fold_left_app. Qed.

Lemma invoked_app (a b : list Event) : invoked (a ++ b) = invoked a ++ invoked b.
Proof. apply flat_map_app. Qed.

(** The accumulators of [collect] only grow at their ends. *)
Lemma collect_extend returned msgs cols :
  collect int_of_str repr returned msgs cols =
  let '(m, c, raised) := collect int_of_str repr returned [] [] in (msgs ++ m, cols ++ c, raised).
Proof.
  unfold collect.
  destruct returned as [v | e]; simpl; [| now rewrite !app_nil_r].
  destruct (unpack2 v) as [[msg color] | e]; simpl; [| now rewrite !app_nil_r].
  destruct (accepted msg color) as [[items |] | e]; try now rewrite !app_nil_r.
  destruct (py_str repr msg) as [text | e]; [| now rewrite !app_nil_r].
  destruct (int_tuple int_of_str items); simpl; now rewrite ?app_nil_r.
Qed.

Lemma run_plugin_extend frame kpts hand_res (d : Dispatch World) item :
  run_plugin int_of_str repr frame kpts hand_res d item =
  extend d (run_plugin int_of_str repr frame kpts hand_res (fresh (world d) (annotated d)) item).
Proof.
  destruct item as [plugin_name plugin_instance].
  unfold run_plugin, extend; simpl.
  destruct (call_run plugin_instance (world d) frame (annotated d) kpts hand_res)
    as [[w ann] returned].
  rewrite (collect_extend returned (messages d) (colors d)).
  destruct (collect int_of_str repr returned [] []) as [[m c] raised]. reflexivity.
Qed.

Lemma extend_assoc (a b c : Dispatch World) :
  extend (extend a b) c = extend a (extend b c).
Proof. unfold extend; simpl. now rewrite !app_assoc. Qed.

Lemma extend_fresh (d : Dispatch World) :
  extend d (fresh (world d) (annotated d)) = d.
Proof. destruct d. unfold extend, fresh; simpl. now rewrite !app_nil_r. Qed.

(** A dispatch continued from [d] is the dispatch started afresh in the
    world and on the image of [d], appended to what [d] has gathered. *)
Lemma run_items_extend frame kpts hand_res items (d : Dispatch World) :
  run_items int_of_str repr frame kpts hand_res items d =
  extend d (run_items int_of_str repr frame kpts hand_res items (fresh (world d) (annotated d))).
Proof.
  revert d. induction items as [| item items IH]; intros d; simpl.
  - symmetry. apply extend_fresh.
  - unfold run_items in *. simpl.
    set (x := run_plugin int_of_str repr frame kpts hand_res
                (fresh (world d) (annotated d)) item).
    rewrite (IH x), (run_plugin_extend frame kpts hand_res d item). fold x.
    rewrite (IH (extend d x)).
    change (world (extend d x)) with (world x).
    change (annotated (extend d x)) with (annotated x).
    apply extend_assoc.
Qed.

Lemma invoked_run_plugin frame kpts hand_res (d : Dispatch World)
    plugin_name plugin_instance :
  invoked (trace (run_plugin int_of_str repr frame kpts hand_res d (plugin_name, plugin_instance))) =
  invoked (trace d) ++
  match plugin_instance with Some _ => [plugin_name] | None => [] end.
Proof.
  unfold run_plugin.
  destruct (call_run plugin_instance (world d) frame (annotated d) kpts hand_res)
    as [[w ann] returned].
  destruct (collect int_of_str repr returned (messages d) (colors d)) as [[m c] raised]. simpl.
  rewrite !invoked_app.
  destruct plugin_instance, raised; simpl; now rewrite ?app_nil_r.
Qed.

(** Exactly the entries that hold an instance are called, in dict order. *)
Lemma invoked_run_items frame kpts hand_res items (d : Dispatch World) :
  invoked (trace (run_items int_of_str repr frame kpts hand_res items d)) =
  invoked (trace d) ++ keys (filter (fun item => is_some (snd item)) items).
Proof.
  revert d. induction items as [| [n i] items IH]; intros d.
  - simpl. now rewrite app_nil_r.
  - change (run_items int_of_str repr frame kpts hand_res ((n, i) :: items) d)
      with (run_items int_of_str repr frame kpts hand_res items
              (run_plugin int_of_str repr frame kpts hand_res d (n, i))).
    rewrite IH, invoked_run_plugin. cbn [filter snd].
    destruct i; cbn [is_some keys map fst app]; now rewrite <- app_assoc.
Qed.

Lemma filter_instances_all (items : dict (option (Instance World))) :
  (forall n i, In (n, i) items -> i <> None) ->
  filter (fun item => is_some (snd item)) items = items.
Proof.
  induction items as [| [n i] items IH]; intros Hall; simpl; [reflexivity |].
  destruct i as [inst |]; simpl.
  - f_equal. apply IH. intros n' i' Hin. apply (Hall n'). now right.
  - exfalso. apply (Hall n None); [now left | reflexivity].
Qed.

(** In a consistent registry a dispatch calls every key of
    [loaded_plugins], in the order of that dict. *)
Lemma invoked_run_plugins (pm : PluginManager World) w frame annotated kpts hand_res :
  registry_consistent pm ->
  invoked (trace (run_plugins int_of_str repr pm w frame annotated kpts hand_res)) =
  keys (loaded_plugins pm).
Proof.
  intros (_ & _ & _ & Hinst & _). unfold run_plugins.
  rewrite invoked_run_items. simpl. now rewrite filter_instances_all.
Qed.

Lemma trace_run_items frame kpts hand_res items (d : Dispatch World) ev :
  In ev (trace d) ->
  In ev (trace (run_items int_of_str repr frame kpts hand_res items d)).
Proof.
  intros Hin. rewrite run_items_extend. simpl. apply in_or_app. now left.
Qed.

Lemma int_tuple_raise items e : int_tuple int_of_str items = Raise e -> e = IntError.
Proof.
  revert e. induction items as [| c items IH]; intros e; simpl; [discriminate |].
  destruct (py_int int_of_str c) as [z | e'] eqn:Hc.
  - destruct (int_tuple int_of_str items) as [zs | e'']; [discriminate |].
    intros [= <-]. now apply IH.
  - intros [= <-].
    destruct c as [| [] | | s | | | truth text [number |] iterated];
      simpl in Hc; try congruence.
    destruct (int_of_str s); congruence.
Qed.

(** The two lists stay in step unless [int(c)] raised between the two
    [append] calls. *)
Lemma collect_lengths returned msgs cols m c raised :
  collect int_of_str repr returned msgs cols = (m, c, raised) ->
  List.length msgs = List.length cols ->
  raised <> Some IntError ->
  List.length m = List.length c.
Proof.
  unfold collect. intros Hc Hlen Hraised.
  destruct returned as [v | e]; [| injection Hc as <- <- _; assumption].
  destruct (unpack2 v) as [[msg color] | e]; [| injection Hc as <- <- _; assumption].
  destruct (accepted msg color) as [[items |] | e];
    try (injection Hc as <- <- _; assumption).
  destruct (py_str repr msg) as [text | e]; [| injection Hc as <- <- _; assumption].
  destruct (int_tuple int_of_str items) as [rgb | e] eqn:Hrgb.
  - injection Hc as <- <- _. rewrite !length_app. simpl. lia.
  - injection Hc as _ _ <-. apply int_tuple_raise in Hrgb. subst e. congruence.
Qed.

Lemma run_items_lengths frame kpts hand_res items (d : Dispatch World) :
  List.length (messages d) = List.length (colors d) ->
  (forall n, ~ In (EvPluginError n IntError)
                  (trace (run_items int_of_str repr frame kpts hand_res items d))) ->
  List.length (messages (run_items int_of_str repr frame kpts hand_res items d)) =
  List.length (colors (run_items int_of_str repr frame kpts hand_res items d)).
Proof.
  revert d. induction items as [| [n i] items IH]; intros d Hlen Hclean.
  - exact Hlen.
  - change (run_items int_of_str repr frame kpts hand_res ((n, i) :: items) d)
      with (run_items int_of_str repr frame kpts hand_res items
              (run_plugin int_of_str repr frame kpts hand_res d (n, i))) in *.
    apply IH; [| exact Hclean].
    assert (Hstep : forall n0, ~ In (EvPluginError n0 IntError)
              (trace (run_plugin int_of_str repr frame kpts hand_res d (n, i)))).
    { intros n0 Hin. apply (Hclean n0). now apply trace_run_items. }
    clear Hclean IH. unfold run_plugin in *.
    destruct (call_run i (world d) frame (annotated d) kpts hand_res)
      as [[w ann] returned].
    destruct (collect int_of_str repr returned (messages d) (colors d))
      as [[m c] raised] eqn:Hc.
    simpl in *. apply (collect_lengths _ _ _ _ _ _ Hc Hlen).
    intros ->. apply (Hstep n). apply in_or_app. right.
    apply in_or_app. right. now left.
Qed.

(** A plugin whose call raises leaves both lists as they were. *)
Lemma run_plugin_raise frame kpts hand_res (d : Dispatch World) n i w ann e :
  call_run i (world d) frame (annotated d) kpts hand_res = (w, ann, Raise e) ->
  run_plugin int_of_str repr frame kpts hand_res d (n, i) =
  {| world := w; annotated := ann; messages := messages d; colors := colors d;
     trace := trace d ++
              match i with Some _ => [EvRun n] | None => [] end ++
              [EvPluginError n e] |}.
Proof. intros Hcall. unfold run_plugin. rewrite Hcall. reflexivity. Qed.

(** A dispatch over [before ++ (n, i) :: after] in which the call of [i]
    raises gathers what [before] and [after] contribute and nothing else. *)
Lemma run_items_skip_raise frame kpts hand_res before n i after
    (d : Dispatch World) w ann e :
  let d1 := run_items int_of_str repr frame kpts hand_res before d in
  call_run i (world d1) frame (annotated d1) kpts hand_res = (w, ann, Raise e) ->
  let d2 := run_items int_of_str repr frame kpts hand_res after (fresh w ann) in
  let r :=
    run_items int_of_str repr frame kpts hand_res (before ++ (n, i) :: after) d in
  messages r = messages d1 ++ messages d2 /\
  colors r = colors d1 ++ colors d2 /\
  world r = world d2 /\ annotated r = annotated d2.
Proof.
  intros d1 Hcall d2 r. subst r. rewrite run_items_app. fold d1.
  change (run_items int_of_str repr frame kpts hand_res ((n, i) :: after) d1)
    with (run_items int_of_str repr frame kpts hand_res after
            (run_plugin int_of_str repr frame kpts hand_res d1 (n, i))).
  rewrite (run_plugin_raise _ _ _ _ n _ _ _ _ Hcall).
  rewrite run_items_extend. simpl. fold d2. now repeat split.
Qed.

End DispatchFacts.

(* ================================================================== *)
(** ** The loop body *)

Section LoopFacts.

Context {World : Type}.
Context (int_of_str : string -> option Z) (repr : PyVal -> option string).

Lemma loop_body_cycle env (s : LoopState World) frame hand_res :
  is_detection_running env = true ->
  cap_isOpened env = true ->
  cap_read env = Some frame ->
  hands_process env (ImCvtRGB (ImResize frame TARGET_WIDTH TARGET_HEIGHT)) = Ok hand_res ->
  loop_body int_of_str repr env s =
  Cycle {| frame_count := frame_count s + 1;
           globals := publish (globals s) (cycle_output int_of_str repr env s frame hand_res);
           loop_world := world (cycle_dispatch int_of_str repr env s frame hand_res);
           loop_trace := loop_trace s ++ trace (cycle_dispatch int_of_str repr env s frame hand_res) |}.
Proof.
  intros Hrun Hopen Hread Hhands. unfold loop_body.
  rewrite Hrun, Hopen, Hread. simpl.
  unfold cycle_output, cycle_dispatch.
  destruct (infer_pose env (ImResize frame TARGET_WIDTH TARGET_HEIGHT))
    as [plotted kpts].
  rewrite Hhands. reflexivity.
Qed.

Lemma loop_body_abort env (s : LoopState World) frame e :
  is_detection_running env = true ->
  cap_isOpened env = true ->
  cap_read env = Some frame ->
  hands_process env (ImCvtRGB (ImResize frame TARGET_WIDTH TARGET_HEIGHT)) = Raise e ->
  loop_body int_of_str repr env s =
  Abort {| frame_count := frame_count s + 1; globals := globals s;
           loop_world := loop_world s; loop_trace := loop_trace s |} e.
Proof.
  intros Hrun Hopen Hread Hhands. unfold loop_body.
  rewrite Hrun, Hopen, Hread. simpl.
  destruct (infer_pose env (ImResize frame TARGET_WIDTH TARGET_HEIGHT)).
  now rewrite Hhands.
Qed.

(** An iteration that an exception ends has counted its frame and assigned
    nothing else. *)
Lemma loop_body_abort_inv env (s s' : LoopState World) e :
  loop_body int_of_str repr env s = Abort s' e ->
  s' = {| frame_count := frame_count s + 1; globals := globals s;
          loop_world := loop_world s; loop_trace := loop_trace s |}.
Proof.
  unfold loop_body.
  destruct (negb (is_detection_running env && cap_isOpened env)); [discriminate |].
  destruct (cap_read env) as [frame |]; [| discriminate].
  destruct (infer_pose env (ImResize frame TARGET_WIDTH TARGET_HEIGHT))
    as [plotted kpts].
  destruct (hands_process env (ImCvtRGB (ImResize frame TARGET_WIDTH TARGET_HEIGHT)))
    as [hand_res | e']; [discriminate |].
  now intros [= <- _].
Qed.

Lemma loop_body_abort_read env (s s' : LoopState World) e :
  loop_body int_of_str repr env s = Abort s' e -> is_some (cap_read env) = true.
Proof.
  unfold loop_body.
  destruct (negb (is_detection_running env && cap_isOpened env)); [discriminate |].
  now destruct (cap_read env).
Qed.

Lemma loop_body_abort_globals env (s s' : LoopState World) e :
  loop_body int_of_str repr env s = Abort s' e -> globals s' = globals s.
Proof. intros H. now rewrite (loop_body_abort_inv _ _ _ _ H). Qed.

(** Every completed iteration publishes exactly one output. *)
Lemma loop_body_publishes env (s s' : LoopState World) :
  loop_body int_of_str repr env s = Cycle s' ->
  exists out, output_of s' = [out] /\ globals s' = publish (globals s) out.
Proof.
  unfold loop_body.
  destruct (negb (is_detection_running env && cap_isOpened env)); [discriminate |].
  destruct (cap_read env) as [frame |]; [| discriminate].
  destruct (infer_pose env (ImResize frame TARGET_WIDTH TARGET_HEIGHT))
    as [plotted kpts].
  destruct (hands_process env (ImCvtRGB (ImResize frame TARGET_WIDTH TARGET_HEIGHT)))
    as [hand_res | e]; [| discriminate].
  intros [= <-]. eexists. split; reflexivity.
Qed.

(** Run alone, the loop leaves the globals as publishing its outputs one
    after the other does. *)
Lemma detection_loop_globals envs (s : LoopState World) :
  globals (fst (detection_loop int_of_str repr envs s)) =
  fold_left publish (published int_of_str repr envs s) (globals s).
Proof.
  revert s. induction envs as [| env later IH]; intros s; simpl; [reflexivity |].
  destruct (loop_body int_of_str repr env s) as [| | s' | s' e] eqn:Hbody;
    simpl; try reflexivity.
  - apply IH.
  - destruct (loop_body_publishes _ _ _ Hbody) as (out & Hout & Hg).
    rewrite IH, Hout, Hg. reflexivity.
  - now rewrite (loop_body_abort_globals _ _ _ _ Hbody).
Qed.

End LoopFacts.

(* ================================================================== *)
(** ** Interleavings *)

Section ThreadFacts.

Variable outs : list CycleOutput.

Lemma cyclewise_initial : cyclewise outs (initial_system outs).
Proof.
  unfold cyclewise, initial_system; simpl.
  repeat split; try (now left); try discriminate; try tauto.
  apply incl_refl.
Qed.

Lemma cyclewise_step sys t : cyclewise outs sys -> cyclewise outs (step sys t).
Proof.
  intros (Hp & Hf & Hm & Hs & Hdm & Hds & Hy).
  destruct sys as [g [pend pc] [spc doc] [vpc ys]]; simpl in *.
  destruct t; unfold step; simpl.
  - (* the detection thread stores one global *)
    unfold producer_step; simpl.
    destruct pend as [| out later]; [now repeat split |].
    assert (Hout : In out outs) by (apply Hp; now left).
    destruct pc; simpl; repeat split; try assumption.
    + intros frame [= <-]. now exists out.
    + right. now exists out.
    + intros x Hx. apply Hp. now right.
    + right. now exists out.
  - (* the status handler loads one global *)
    destruct spc; simpl; now repeat split.
  - (* the video handler tests or loads the frame *)
    unfold video_step; simpl. destruct vpc; simpl.
    + destruct (is_some (current_frame g)); now repeat split.
    + destruct (current_frame g) as [frame |] eqn:Hframe; simpl;
        repeat split; simpl; try assumption;
        try (intros f Hload; apply Hf; congruence).
      intros f Hin. apply in_app_or in Hin. destruct Hin as [Hin | [<- | []]].
      * now apply Hy.
      * now apply Hf.
    + now repeat split.
Qed.

Lemma cyclewise_run schedule sys :
  cyclewise outs sys -> cyclewise outs (run_schedule schedule sys).
Proof.
  revert sys. induction schedule as [| t schedule IH]; intros sys H; simpl.
  - exact H.
  - apply IH. now apply cyclewise_step.
Qed.

End ThreadFacts.

(** With no reader in between, three steps of the detection thread are one
    [publish]. *)
Lemma producer_publishes g out later r v :
  run_schedule [DetectionThread; DetectionThread; DetectionThread]
    {| shared := g; producer := {| pending := out :: later; publish_pc := AtFrame |};
       status_request := r; video := v |} =
  {| shared := publish g out;
     producer := {| pending := later; publish_pc := AtFrame |};
     status_request := r; video := v |}.
Proof. reflexivity. Qed.

Lemma run_schedule_app a b sys :
  run_schedule (a ++ b) sys = run_schedule b (run_schedule a sys).
Proof. apply fold_left_app. Qed.

(** Left alone, the detection thread publishes its outputs one after the
    other. *)
Lemma producer_alone outs g r v :
  shared
    (run_schedule (repeat DetectionThread (3 * List.length outs))
       {| shared := g; producer := {| pending := outs; publish_pc := AtFrame |};
          status_request := r; video := v |}) =
  fold_left publish outs g.
Proof.
  revert g. induction outs as [| out later IH]; intros g; [reflexivity |].
  replace (3 * List.length (out :: later))%nat
    with (3 + 3 * List.length later)%nat by (simpl; lia).
  rewrite repeat_app, run_schedule_app.
  change (repeat DetectionThread 3)
    with [DetectionThread; DetectionThread; DetectionThread].
  rewrite producer_publishes. apply IH.
Qed.

(** The thread model and the sequential loop agree when no reader runs:
    the globals end as [detection_loop] leaves them. *)
Lemma detection_thread_alone {World} int_of_str repr
    (envs : list (FrameEnv World)) (w : World) :
  shared
    (run_schedule
       (repeat DetectionThread
          (3 * List.length (published int_of_str repr envs (initial_loop_state w))))
       (initial_system (published int_of_str repr envs (initial_loop_state w)))) =
  globals (fst (detection_loop int_of_str repr envs (initial_loop_state w))).
Proof.
  unfold initial_system. rewrite producer_alone.
  symmetry. apply detection_loop_globals.
Qed.

Lemma status_loads_initial outs : status_loads outs (initial_system outs).
Proof.
  split; [apply cyclewise_initial |].
  exists []. split; [now left | reflexivity].
Qed.

Lemma status_loads_step outs sys t :
  status_loads outs sys -> status_loads outs (step sys t).
Proof.
  intros (Hcw & loaded & Hloaded & Hcolors).
  split; [now apply cyclewise_step |].
  destruct Hcw as (_ & _ & Hm & _).
  destruct sys as [g [pend pc] [spc doc] [vpc ys]]; simpl in *.
  destruct t; unfold step; simpl.
  - destruct (producer_step g {| pending := pend; publish_pc := pc |}).
    simpl. now exists loaded.
  - destruct spc; simpl; try (now exists loaded).
    now exists (current_messages g).
  - now exists loaded.
Qed.

Lemma status_loads_run outs schedule sys :
  status_loads outs sys -> status_loads outs (run_schedule schedule sys).
Proof.
  revert sys. induction schedule as [| t schedule IH]; intros sys H; simpl.
  - exact H.
  - apply IH. now apply status_loads_step.
Qed.

(** With no writer in between, the three loads of a request see the same
    globals. *)
Lemma status_request_atomic g p v :
  response
    (status_request
       (run_schedule [StatusHandler; StatusHandler; StatusHandler]
          {| shared := g; producer := p;
             status_request := {| status_pc := LoadMessages; response := empty_document |};
             video := v |})) =
  get_status (current_messages g) (current_status g) (current_messages g).
Proof. reflexivity. Qed.

(* ================================================================== *)
(** * The properties C1 to C10 *)

(** ** C1: messages and colors *)

(** C1, counterexample.  With two plugins enabled, each returning a message
    and a color, the document of [GET /api/status] served after one frame
    carries two messages and one color; a request whose first load comes
    before that frame is published and whose last load comes after it
    carries no message and one color. *)
Lemma status_colors_not_paired :
  map out_messages Demo.one_cycle_outputs = [["alpha here"; "beta here"]] /\
  colors (Demo.run_plugins Demo.two_plugins 0%nat Demo.frame_small
            Demo.frame_small None Demo.no_hands) = [[0; 255; 0]; [0; 255; 0]] /\
  Demo.settled_document =
    get_status (current_messages (globals Demo.after_one_frame))
      (current_status (globals Demo.after_one_frame))
      (current_messages (globals Demo.after_one_frame)) /\
  doc_messages Demo.settled_document = ["alpha here"; "beta here"] /\
  doc_colors Demo.settled_document = [[255; 75; 43]] /\
  List.length (doc_messages Demo.settled_document) <>
  List.length (doc_colors Demo.settled_document) /\
  doc_messages Demo.straddling_document = [] /\
  doc_colors Demo.straddling_document = [[255; 75; 43]] /\
  List.length (doc_messages Demo.straddling_document) <>
  List.length (doc_colors Demo.straddling_document).
Proof. vm_compute. repeat split; discriminate. Qed.

(** C1, as the code has it.  The status document is made of three loads:
    its messages are [current_messages] as first loaded, and its colors are
    the single color [[255, 75, 43]] when [current_messages] as loaded again
    is not empty and no color otherwise, so [min 1 n] colors for the [n]
    messages of the last load.  Under every interleaving with the detection
    thread the document is of that form, each load being the initial value
    or the messages of one iteration: it never has more than one color, and
    the messages that decide the color need not be the messages returned.
    When nothing is assigned between the loads the colors number
    [min 1 (number of messages returned)], as many as the messages only
    when there is at most one message.  The pair returned by
    [run_plugins] has as many colors as messages in every dispatch in which
    no color conversion raised. *)
Theorem status_document_colors :
  forall (World : Type) (int_of_str : string -> option Z) (repr : PyVal -> option string),
    (forall messages_loaded status_loaded messages_loaded_again,
        doc_messages (get_status messages_loaded status_loaded messages_loaded_again) =
          messages_loaded /\
        doc_colors (get_status messages_loaded status_loaded messages_loaded_again) =
          match messages_loaded_again with [] => [] | _ :: _ => [[255; 75; 43]] end /\
        List.length
          (doc_colors (get_status messages_loaded status_loaded messages_loaded_again)) =
          Nat.min 1 (List.length messages_loaded_again)) /\
    (forall (outs : list CycleOutput) (schedule : list Thread),
        exists messages_loaded status_loaded messages_loaded_again,
          response (status_request (run_schedule schedule (initial_system outs))) =
            get_status messages_loaded status_loaded messages_loaded_again /\
          messages_of_a_cycle outs messages_loaded /\
          status_of_a_cycle outs status_loaded /\
          messages_of_a_cycle outs messages_loaded_again /\
          (List.length
             (doc_colors
                (response (status_request
                   (run_schedule schedule (initial_system outs))))) <= 1)%nat) /\
    (forall g p v,
        let doc :=
          response
            (status_request
               (run_schedule [StatusHandler; StatusHandler; StatusHandler]
                  {| shared := g; producer := p;
                     status_request :=
                       {| status_pc := LoadMessages; response := empty_document |};
                     video := v |})) in
        doc_messages doc = current_messages g /\
        List.length (doc_colors doc) = Nat.min 1 (List.length (doc_messages doc)) /\
        (List.length (doc_messages doc) = List.length (doc_colors doc) <->
         (List.length (doc_messages doc) <= 1)%nat)) /\
    (forall (pm : PluginManager World) w frame annotated kpts hand_res,
        (forall n, ~ In (EvPluginError n IntError)
                        (trace (run_plugins int_of_str repr pm w frame annotated
                                  kpts hand_res))) ->
        List.length (messages (run_plugins int_of_str repr pm w frame annotated
                                 kpts hand_res)) =
        List.length (colors (run_plugins int_of_str repr pm w frame annotated
                               kpts hand_res))).
Proof.
  intros World int_of_str repr. split; [| split; [| split]].
  - intros m1 st m2. unfold get_status; simpl.
    destruct m2; simpl; repeat split; reflexivity.
  - intros outs schedule.
    destruct (status_loads_run outs schedule _ (status_loads_initial outs))
      as (Hcw & m2 & Hm2 & Hcolors).
    destruct Hcw as (_ & _ & _ & _ & Hdm & Hds & _).
    set (doc := response (status_request (run_schedule schedule (initial_system outs))))
      in *.
    exists (doc_messages doc), (doc_status doc), m2.
    split; [| split; [| split; [| split]]]; try assumption.
    + destruct doc as [dm ds dc]. simpl in *. unfold get_status. now rewrite Hcolors.
    + rewrite Hcolors. destruct m2; simpl; lia.
  - intros g p v doc. subst doc. rewrite status_request_atomic. simpl.
    split; [reflexivity |].
    destruct (current_messages g) as [| m [| m' more]]; simpl;
      (split; [reflexivity | split; intros H; try reflexivity; lia]).
  - intros pm w frame annotated kpts hand_res Hclean.
    unfold run_plugins in *. now apply run_items_lengths.
Qed.

(** The dispatch of [alpha] and [beta] converts every color: two messages,
    two colors. *)
Lemma status_document_colors_witness :
  (forall n, ~ In (EvPluginError n IntError)
                  (trace (Demo.run_plugins Demo.two_plugins 0%nat Demo.frame_small
                            Demo.frame_small None Demo.no_hands))) /\
  List.length (messages (Demo.run_plugins Demo.two_plugins 0%nat Demo.frame_small
                           Demo.frame_small None Demo.no_hands)) =
  List.length (colors (Demo.run_plugins Demo.two_plugins 0%nat Demo.frame_small
                         Demo.frame_small None Demo.no_hands)).
Proof.
  assert (Hclean : forall n, ~ In (EvPluginError n IntError)
            (trace (Demo.run_plugins Demo.two_plugins 0%nat Demo.frame_small
                      Demo.frame_small None Demo.no_hands))).
  { vm_compute. intros n [H | [H | []]]; discriminate. }
  split; [exact Hclean |].
  exact (proj2 (proj2 (proj2 (status_document_colors nat Demo.int_of_str Demo.repr)))
           Demo.two_plugins 0%nat Demo.frame_small Demo.frame_small None
           Demo.no_hands Hclean).
Defined.

(** ** C2: what concurrent readers observe *)

(** C2, counterexample.  A status request served between the second and the
    third assignment of cycle 2 answers with the messages of cycle 2 and the
    status of cycle 1. *)
Lemma torn_status_document :
  doc_messages Demo.torn_document = ["again"] /\
  option_map st_frame_count (doc_status Demo.torn_document) = Some 1 /\
  map out_messages Demo.count_outputs = [["first"]; ["again"]] /\
  map (fun out => st_frame_count (out_status out)) Demo.count_outputs = [1; 2] /\
  ~ single_cycle_document Demo.count_outputs Demo.torn_document.
Proof.
  repeat split; try (vm_compute; reflexivity).
  intros [[Hm _] | (out & Hin & Hm & Hs)].
  - vm_compute in Hm. discriminate.
  - vm_compute in Hin. destruct Hin as [<- | [<- | []]].
    + vm_compute in Hm. discriminate.
    + vm_compute in Hs. discriminate.
Qed.

(** C2, as the code has it.  Under every interleaving of the detection
    thread with a status request and a video stream, each part of what a
    reader obtains was assigned by one loop iteration (or is the initial
    value): the messages of the status document, its status, and every
    frame the stream yields.  Nothing ties the iteration of one part to the
    iteration of another. *)
Theorem readers_see_cycle_values :
  forall (outs : list CycleOutput) (schedule : list Thread),
    messages_of_a_cycle outs
      (doc_messages (response (status_request
         (run_schedule schedule (initial_system outs))))) /\
    status_of_a_cycle outs
      (doc_status (response (status_request
         (run_schedule schedule (initial_system outs))))) /\
    Forall (frame_of_a_cycle outs)
      (yielded (video (run_schedule schedule (initial_system outs)))).
Proof.
  intros outs schedule.
  destruct (cyclewise_run outs schedule _ (cyclewise_initial outs))
    as (_ & _ & _ & _ & Hdm & Hds & Hy).
  repeat split; try assumption. now apply Forall_forall.
Qed.

(** ** C3: a plugin that raises *)

(** C3.  Take an iteration that obtains a frame and hand results, and a
    plugin of [loaded_plugins] whose [run] raises when its turn comes.  The
    iteration still runs to its end and publishes its three outputs: the
    frame counter advances by one; [current_frame] is the image as the
    plugins after the failing one leave it, with the overlays of that
    counter; the published status carries that counter and counts the
    published messages; and the published messages (and the colors
    gathered with them) are those of the plugins before the failing one
    followed by those of the plugins after it. *)
Theorem plugin_failure_isolated :
  forall (World : Type) (int_of_str : string -> option Z) (repr : PyVal -> option string)
         (env : FrameEnv World) (s : LoopState World) frame hand_res
         before plugin_name plugin_instance after w ann e,
    is_detection_running env = true ->
    cap_isOpened env = true ->
    cap_read env = Some frame ->
    hands_process env (ImCvtRGB (ImResize frame TARGET_WIDTH TARGET_HEIGHT)) =
      Ok hand_res ->
    loaded_plugins (plugin_manager env) =
      before ++ (plugin_name, plugin_instance) :: after ->
    let frame_small := ImResize frame TARGET_WIDTH TARGET_HEIGHT in
    let kpts := snd (infer_pose env frame_small) in
    let d1 :=
      run_items int_of_str repr frame_small kpts hand_res before
        (fresh (loop_world s) (draw_hands (fst (infer_pose env frame_small)) hand_res)) in
    call_run plugin_instance (world d1) frame_small (annotated d1) kpts hand_res =
      (w, ann, Raise e) ->
    let d2 := run_items int_of_str repr frame_small kpts hand_res after (fresh w ann) in
    exists s',
      loop_body int_of_str repr env s = Cycle s' /\
      frame_count s' = frame_count s + 1 /\
      current_frame (globals s') =
        Some (ui_overlays (annotated d2) (frame_count s + 1)
                (List.length (get_enabled_plugins (plugin_manager env)))) /\
      current_status (globals s') =
        Some (make_status env (frame_count s + 1) kpts hand_res
                (messages d1 ++ messages d2)) /\
      option_map st_frame_count (current_status (globals s')) =
        Some (frame_count s + 1) /\
      current_messages (globals s') = messages d1 ++ messages d2 /\
      colors (cycle_dispatch int_of_str repr env s frame hand_res) =
        colors d1 ++ colors d2 /\
      loop_world s' = world d2.
Proof.
  intros World int_of_str repr env s frame hand_res before plugin_name
    plugin_instance after w ann e Hrun Hopen Hread Hhands Hloaded
    frame_small kpts d1 Hcall d2.
  rewrite (loop_body_cycle int_of_str repr env s frame hand_res Hrun Hopen Hread Hhands).
  eexists. split; [reflexivity |]. simpl.
  destruct (run_items_skip_raise int_of_str repr frame_small kpts hand_res
              before plugin_name plugin_instance after
              (fresh (loop_world s)
                 (draw_hands (fst (infer_pose env frame_small)) hand_res))
              w ann e Hcall) as (Hm & Hc & Hw & Ha).
  unfold cycle_dispatch, run_plugins. rewrite Hloaded.
  fold frame_small. fold kpts. fold d1 in Hm, Hc. fold d2 in Hm, Hc, Hw, Ha.
  rewrite Hm, Hc, Hw, Ha.
  repeat split; reflexivity.
Qed.

(** [crash] draws on the image and raises between [alpha] and [beta]:
    frame 1 is published, with what [crash] drew and the overlays of frame
    1, and with the messages of [alpha] and [beta]. *)
Lemma plugin_failure_isolated_witness :
  loaded_plugins Demo.with_crash =
    [("alpha", Some (Demo.says "alpha here")); ("crash", Some Demo.crashing);
     ("beta", Some (Demo.says "beta here"))] /\
  exists s',
    Demo.loop_body (Demo.frame_env [Demo.first_detected] Demo.with_crash)
      (initial_loop_state 0%nat) = Cycle s' /\
    frame_count s' = 1 /\
    current_frame (globals s') =
      Some (ui_overlays (ImPlot (ImPlot Demo.frame_small [17]) [1]) 1 3) /\
    option_map st_frame_count (current_status (globals s')) = Some 1 /\
    option_map st_plugin_count (current_status (globals s')) = Some 2%nat /\
    current_messages (globals s') = ["alpha here"; "beta here"].
Proof.
  split; [reflexivity |].
  destruct (plugin_failure_isolated nat Demo.int_of_str Demo.repr
              (Demo.frame_env [Demo.first_detected] Demo.with_crash)
              (initial_loop_state 0%nat) Demo.camera_frame Demo.no_hands
              [("alpha", Some (Demo.says "alpha here"))]
              "crash" (Some Demo.crashing)
              [("beta", Some (Demo.says "beta here"))]
              2%nat
              (ImPlot (ImPlot Demo.frame_small [17]) [1])
              (ExternalError "boom")
              eq_refl eq_refl eq_refl eq_refl eq_refl eq_refl)
    as (s' & Hbody & Hcount & Hframe & Hstatus & Hnumber & Hmsgs & _).
  exists s'. split; [exact Hbody |]. split; [exact Hcount |].
  split; [exact Hframe |]. split; [exact Hnumber |].
  split; [now rewrite Hstatus | exact Hmsgs].
Defined.

(** ** C4: the order of a dispatch *)

(** C4, counterexample.  [alpha] is registered before [beta]; after
    [beta] is enabled and then [alpha], a dispatch calls [beta] first and
    its message comes first. *)
Lemma dispatch_not_in_registration_order :
  keys (available_plugins Demo.beta_first) =
    ["alpha"; "beta"; "crash"; "tint"; "pose"; "count"] /\
  get_enabled_plugins Demo.beta_first = ["alpha"; "beta"] /\
  invoked (trace (Demo.run_plugins Demo.beta_first 0%nat Demo.frame_small
                    Demo.frame_small None Demo.no_hands)) = ["beta"; "alpha"] /\
  messages (Demo.run_plugins Demo.beta_first 0%nat Demo.frame_small
              Demo.frame_small None Demo.no_hands) = ["beta here"; "alpha here"] /\
  invoked (trace (Demo.run_plugins Demo.beta_first 0%nat Demo.frame_small
                    Demo.frame_small None Demo.no_hands)) <>
  get_enabled_plugins Demo.beta_first.
Proof. vm_compute. repeat split; discriminate. Qed.

(** C4, as the code has it.  A dispatch calls the plugins in the order of
    the [loaded_plugins] dict, which is the order in which they were
    enabled: enabling a disabled plugin puts it after all the plugins
    enabled at that time, and the messages of the plugins earlier in that
    dict come before the messages of the later ones. *)
Theorem dispatch_in_enable_order :
  forall (World : Type) (int_of_str : string -> option Z) (repr : PyVal -> option string)
         (pm : PluginManager World),
    registry_consistent pm ->
    (forall w frame image kpts hand_res,
        invoked (trace (run_plugins int_of_str repr pm w frame image kpts hand_res)) =
        keys (loaded_plugins pm)) /\
    (forall plugin_name info,
        dict_get (available_plugins pm) plugin_name = Some info ->
        enabled info = false ->
        loaded_plugins (snd (enable_plugin pm plugin_name)) =
        loaded_plugins pm ++ [(plugin_name, instance info)]) /\
    (forall w frame image kpts hand_res earlier later,
        loaded_plugins pm = earlier ++ later ->
        messages (run_plugins int_of_str repr pm w frame image kpts hand_res) =
        messages (run_items int_of_str repr frame kpts hand_res earlier
                    (fresh w image)) ++
        messages (run_items int_of_str repr frame kpts hand_res later
                    (fresh
                       (world (run_items int_of_str repr frame kpts hand_res
                                 earlier (fresh w image)))
                       (annotated (run_items int_of_str repr frame kpts hand_res
                                     earlier (fresh w image)))))).
Proof.
  intros World int_of_str repr pm Hpm. split; [| split].
  - intros. now apply invoked_run_plugins.
  - intros plugin_name info Hget Hdis. unfold enable_plugin.
    rewrite Hget, Hdis. simpl. apply dict_set_absent.
    destruct Hpm as (_ & _ & Hiff & _ & _). intros Hin.
    apply Hiff in Hin. destruct Hin as (info' & Hget' & Hen). congruence.
  - intros w frame image kpts hand_res earlier later Hsplit.
    unfold run_plugins. rewrite Hsplit, run_items_app, run_items_extend.
    reflexivity.
Qed.

(** [beta] was enabled before [alpha], which is registered first: a
    dispatch calls [beta], then [alpha]; enabling [crash] puts it after
    both; and the message of [beta] comes before that of [alpha]. *)
Lemma dispatch_in_enable_order_witness :
  registry_consistent Demo.beta_first /\
  keys (available_plugins Demo.beta_first) =
    ["alpha"; "beta"; "crash"; "tint"; "pose"; "count"] /\
  invoked (trace (Demo.run_plugins Demo.beta_first 0%nat Demo.frame_small
                    Demo.frame_small None Demo.no_hands)) = ["beta"; "alpha"] /\
  keys (loaded_plugins (snd (enable_plugin Demo.beta_first "crash"))) =
    ["beta"; "alpha"; "crash"] /\
  messages (Demo.run_plugins Demo.beta_first 0%nat Demo.frame_small
              Demo.frame_small None Demo.no_hands) =
    ["beta here"] ++ ["alpha here"].
Proof.
  assert (H : registry_consistent Demo.beta_first).
  { apply registry_check_sound. reflexivity. }
  destruct (dispatch_in_enable_order nat Demo.int_of_str Demo.repr
              Demo.beta_first H) as (Hcalls & Hlast & Hsplit).
  split; [exact H |]. split; [reflexivity |]. split; [| split].
  - exact (Hcalls 0%nat Demo.frame_small Demo.frame_small None Demo.no_hands).
  - rewrite (Hlast "crash" (make_plugin_info "crash" Demo.crashing)
               eq_refl eq_refl).
    reflexivity.
  - exact (Hsplit 0%nat Demo.frame_small Demo.frame_small None Demo.no_hands
             [("beta", Some (Demo.says "beta here"))]
             [("alpha", Some (Demo.says "alpha here"))] eq_refl).
Defined.

(** ** C5: plugins that require keypoints *)

(** C5, counterexample.  [pose] declares [requires_keypoints = True] and is
    enabled; on a frame in which nobody is detected its [run] is called all
    the same, and its message is published. *)
Lemma requires_keypoints_not_enforced :
  option_map requires_keypoints (dict_get (available_plugins Demo.pose_enabled) "pose") =
    Some true /\
  option_map st_person_detected (current_status (globals Demo.after_empty_frame)) =
    Some false /\
  In (EvRun "pose") (loop_trace Demo.after_empty_frame) /\
  current_messages (globals Demo.after_empty_frame) = ["pose checked"].
Proof. vm_compute. repeat split; auto. Qed.

(** C5, as the code has it.  A dispatch calls every enabled plugin on
    every cycle, also when the keypoints are absent and whatever the
    plugin's [requires_keypoints] and [requires_hands] say: the two flags
    are descriptive only. *)
Theorem dispatch_ignores_requirements :
  forall (World : Type) (int_of_str : string -> option Z) (repr : PyVal -> option string)
         (pm : PluginManager World) plugin_name info,
    registry_consistent pm ->
    dict_get (available_plugins pm) plugin_name = Some info ->
    enabled info = true ->
    forall w frame annotated hand_res,
      In plugin_name
        (invoked (trace (run_plugins int_of_str repr pm w frame annotated None
                           hand_res))).
Proof.
  intros World int_of_str repr pm plugin_name info Hpm Hget Hen
    w frame annotated hand_res.
  rewrite invoked_run_plugins by assumption.
  destruct Hpm as (_ & _ & Hiff & _ & _). apply Hiff. now exists info.
Qed.

(** [pose] is enabled and is called without keypoints. *)
Lemma dispatch_ignores_requirements_witness :
  In "pose"
    (invoked (trace (Demo.run_plugins Demo.pose_enabled 0%nat Demo.frame_small
                       Demo.frame_small None Demo.no_hands))).
Proof.
  apply (dispatch_ignores_requirements nat Demo.int_of_str Demo.repr
           Demo.pose_enabled "pose"
           (set_enabled (make_plugin_info "pose" Demo.pose_only) true)).
  - apply registry_check_sound. reflexivity.
  - reflexivity.
  - reflexivity.
Defined.

(** ** C6: unknown plugin names *)

(** C6.  For a name that is not a key of [available_plugins],
    [enable_plugin] returns [False], [toggle_plugin] returns
    [(False, False)], and neither changes the registry; in particular the
    enabled plugins are the same before and after. *)
Theorem unknown_plugin_rejected :
  forall (World : Type) (pm : PluginManager World) (plugin_name : string),
    dict_contains (available_plugins pm) plugin_name = false ->
    enable_plugin pm plugin_name = (false, pm) /\
    toggle_plugin pm plugin_name = ((false, false), pm) /\
    get_enabled_plugins (snd (enable_plugin pm plugin_name)) = get_enabled_plugins pm /\
    get_enabled_plugins (snd (toggle_plugin pm plugin_name)) = get_enabled_plugins pm /\
    loaded_plugins (snd (enable_plugin pm plugin_name)) = loaded_plugins pm /\
    loaded_plugins (snd (toggle_plugin pm plugin_name)) = loaded_plugins pm.
Proof.
  intros World pm plugin_name Hunknown.
  unfold dict_contains in Hunknown. unfold enable_plugin, toggle_plugin.
  destruct (dict_get (available_plugins pm) plugin_name); [discriminate |].
  repeat split; reflexivity.
Qed.

(** No plugin is called [gamma]. *)
Lemma unknown_plugin_rejected_witness :
  dict_contains (available_plugins Demo.two_plugins) "gamma" = false /\
  enable_plugin Demo.two_plugins "gamma" = (false, Demo.two_plugins) /\
  toggle_plugin Demo.two_plugins "gamma" = ((false, false), Demo.two_plugins).
Proof.
  split; [reflexivity |].
  destruct (unknown_plugin_rejected nat Demo.two_plugins "gamma" eq_refl)
    as (He & Ht & _).
  split; assumption.
Defined.

(** ** C7: a detector that raises *)

(** C7, the failing input.  When the pose model raises, the iteration goes
    on with a copy of the resized frame and no keypoints, and the loop
    reaches the next frame.  When the hand detector raises, the exception
    leaves the loop body: the frame has been counted, nothing is published
    for it and the loop ends there, before the frame that follows. *)
Theorem hand_detector_failure_stops_loop :
  infer_pose (Demo.pose_fail_env Demo.two_plugins) Demo.frame_small =
    (Demo.frame_small, None) /\
  snd (Demo.detection_loop
         [Demo.pose_fail_env Demo.two_plugins;
          Demo.frame_env [Demo.first_detected] Demo.two_plugins]
         (initial_loop_state 0%nat)) = Running /\
  frame_count
    (fst (Demo.detection_loop
            [Demo.pose_fail_env Demo.two_plugins;
             Demo.frame_env [Demo.first_detected] Demo.two_plugins]
            (initial_loop_state 0%nat))) = 2 /\
  Demo.loop_body (Demo.hands_fail_env Demo.two_plugins) (initial_loop_state 0%nat) =
    Abort {| frame_count := 1; globals := initial_globals;
             loop_world := 0%nat; loop_trace := [] |}
      (ExternalError "hand detector failed") /\
  Demo.detection_loop
    [Demo.hands_fail_env Demo.two_plugins;
     Demo.frame_env [Demo.first_detected] Demo.two_plugins]
    (initial_loop_state 0%nat) =
    ({| frame_count := 1; globals := initial_globals;
        loop_world := 0%nat; loop_trace := [] |},
     Crashed (ExternalError "hand detector failed")) /\
  Demo.published
    [Demo.hands_fail_env Demo.two_plugins;
     Demo.frame_env [Demo.first_detected] Demo.two_plugins]
    (initial_loop_state 0%nat) = [].
Proof. vm_compute. repeat split; reflexivity. Qed.

(** ** C8: one keypoint set per frame *)

(** C8.  The keypoints of an iteration are an optional single set.  When
    the pose model reports the rows [person :: others], however many, the
    keypoints are [person]; and whenever the iteration has keypoints, they
    are the first row that the model reported for the frame. *)
Theorem single_keypoint_set :
  forall (World : Type) (env : FrameEnv World) (frame_small : Image),
    (forall r rs plotted person others,
        model env frame_small = Ok (r :: rs) ->
        plot r = Ok plotted ->
        keypoints_data r = Ok (person :: others) ->
        infer_pose env frame_small = (plotted, Some person)) /\
    (forall person,
        snd (infer_pose env frame_small) = Some person ->
        exists r rs others,
          model env frame_small = Ok (r :: rs) /\
          keypoints_data r = Ok (person :: others)).
Proof.
  intros World env frame_small. unfold infer_pose. split.
  - intros r rs plotted person others Hmodel Hplot Hdata.
    now rewrite Hmodel, Hplot, Hdata.
  - intros person.
    destruct (model env frame_small) as [[| r rs] | e]; simpl; try discriminate.
    destruct (plot r) as [plotted | e]; simpl; try discriminate.
    destruct (keypoints_data r) as [[| first others] | e] eqn:Hdata; simpl;
      try discriminate.
    intros [= <-]. exists r, rs, others. split; [reflexivity | exact Hdata].
Qed.

(** Two people detected: the keypoints are those of the first. *)
Lemma single_keypoint_set_witness :
  infer_pose
    (Demo.frame_env [Demo.first_detected; Demo.second_detected] Demo.two_plugins)
    Demo.frame_small =
  (ImPlot Demo.frame_small [17], Some Demo.first_detected).
Proof.
  apply (proj1 (single_keypoint_set nat
                  (Demo.frame_env [Demo.first_detected; Demo.second_detected]
                     Demo.two_plugins)
                  Demo.frame_small)
           {| plot := Ok (ImPlot Demo.frame_small [17]);
              keypoints_data := Ok [Demo.first_detected; Demo.second_detected] |}
           [] (ImPlot Demo.frame_small [17]) Demo.first_detected
           [Demo.second_detected]);
    reflexivity.
Defined.

(** ** C9: discovery *)

(** C9.  After discovery the registry holds, under a name [n], a
    descriptor exactly when [n] is one of the plugin files, does not start
    with two underscores and its module loaded a plugin; the descriptor is
    then the complete one built from that plugin, disabled.  A file whose
    import or construction raises, or that defines no plugin, leaves
    nothing under its name and does not affect the other names.  No plugin
    is loaded for dispatch yet. *)
Theorem discovery_registers_loaded_units :
  forall (World : Type) (folder : string) (pkg : PluginPackage World) (n : string),
    dict_get (available_plugins (new_plugin_manager folder (Some pkg))) n =
      (if (existsb (String.eqb n) (plugin_files pkg) && negb (startswith_dunder n))%bool
       then match import_module pkg n with
            | Loaded inst => Some (make_plugin_info n inst)
            | ImportRaises _ | PluginRaises _ | NoPluginClass => None
            end
       else None) /\
    loaded_plugins (new_plugin_manager folder (Some pkg)) = [].
Proof.
  intros World folder pkg n. split; [| reflexivity].
  unfold new_plugin_manager, discover_plugins; simpl.
  rewrite dict_get_discover. simpl.
  destruct (existsb (String.eqb n) (plugin_files pkg) && negb (startswith_dunder n))%bool;
    [| reflexivity].
  destruct (import_module pkg n); reflexivity.
Qed.

(** ** C10: the registry invariant *)

(** C10.  The registry is consistent after discovery, and stays so under
    [enable_plugin], [disable_plugin] and [toggle_plugin].  In a consistent
    registry a descriptor is enabled exactly when its name is a key of
    [loaded_plugins], and the plugins that a dispatch calls are the ones
    that [get_enabled_plugins] reports. *)
Theorem registry_invariant :
  forall (World : Type) (int_of_str : string -> option Z) (repr : PyVal -> option string),
    (forall folder (package : option (PluginPackage World)),
        registry_consistent (new_plugin_manager folder package)) /\
    (forall (pm : PluginManager World) plugin_name,
        registry_consistent pm ->
        registry_consistent (snd (enable_plugin pm plugin_name)) /\
        registry_consistent (snd (disable_plugin pm plugin_name)) /\
        registry_consistent (snd (toggle_plugin pm plugin_name))) /\
    (forall (pm : PluginManager World) plugin_name info,
        registry_consistent pm ->
        dict_get (available_plugins pm) plugin_name = Some info ->
        (enabled info = true <-> In plugin_name (keys (loaded_plugins pm)))) /\
    (forall (pm : PluginManager World) plugin_name w frame image kpts hand_res,
        registry_consistent pm ->
        (In plugin_name
           (invoked (trace (run_plugins int_of_str repr pm w frame image kpts hand_res)))
         <-> In plugin_name (get_enabled_plugins pm))).
Proof.
  intros World int_of_str repr. repeat apply conj.
  - apply new_plugin_manager_consistent.
  - intros pm plugin_name Hpm. split; [| split].
    + now apply enable_plugin_consistent.
    + now apply disable_plugin_consistent.
    + now apply toggle_plugin_consistent.
  - intros pm plugin_name info (_ & _ & Hiff & _ & _) Hget. rewrite Hiff. split.
    + intros Hen. now exists info.
    + intros (info' & Hget' & Hen). congruence.
  - intros pm plugin_name w frame image kpts hand_res Hpm.
    rewrite invoked_run_plugins by assumption.
    destruct Hpm as (Hnd & _ & Hiff & _ & _).
    rewrite Hiff. symmetry. now apply in_get_enabled_plugins.
Qed.

(** The discovered registry, toggled once and then disabled again. *)
Lemma registry_invariant_witness :
  registry_consistent Demo.registry /\
  registry_consistent (snd (toggle_plugin Demo.registry "beta")) /\
  registry_consistent
    (snd (disable_plugin (snd (toggle_plugin Demo.registry "beta")) "beta")) /\
  get_enabled_plugins (snd (toggle_plugin Demo.registry "beta")) = ["beta"] /\
  keys (loaded_plugins (snd (toggle_plugin Demo.registry "beta"))) = ["beta"].
Proof.
  pose proof (registry_invariant nat Demo.int_of_str Demo.repr)
    as (Hnew & Hkeep & _ & _).
  assert (H0 : registry_consistent Demo.registry) by apply Hnew.
  assert (H1 : registry_consistent (snd (toggle_plugin Demo.registry "beta")))
    by apply (Hkeep Demo.registry "beta" H0).
  split; [exact H0 |]. split; [exact H1 |].
  split; [apply (Hkeep (snd (toggle_plugin Demo.registry "beta")) "beta" H1) |].
  split; reflexivity.
Defined.

(* ================================================================== *)
(** * Further properties of the registry *)

Section MoreDictFacts.

Context {V : Type}.
Implicit Types (d : dict V) (k : string) (v : V).

Lemma dict_set_twice d k v v' : dict_set (dict_set d k v) k v' = dict_set d k v'.
Proof.
  induction d as [| [k' w] rest IH]; simpl.
  - now rewrite String.eqb_refl.
  - destruct (String.eqb_spec k k') as [-> | Hne]; simpl.
    + now rewrite String.eqb_refl.
    + destruct (String.eqb_spec k k'); [contradiction | now rewrite IH].
Qed.

Lemma dict_set_same_value d k v : dict_get d k = Some v -> dict_set d k v = d.
Proof.
  induction d as [| [k' w] rest IH]; simpl; [discriminate |].
  destruct (String.eqb_spec k k') as [-> | Hne].
  - now intros [= ->].
  - intros H. now rewrite IH.
Qed.

Lemma dict_del_set_absent d k v : ~ In k (keys d) -> dict_del (dict_set d k v) k = d.
Proof.
  induction d as [| [k' w] rest IH]; simpl; intros Hout.
  - now rewrite String.eqb_refl.
  - destruct (String.eqb_spec k k') as [-> | Hne]; simpl.
    + exfalso. apply Hout. now left.
    + destruct (String.eqb_spec k k'); [contradiction |].
      rewrite IH; [reflexivity | tauto].
Qed.

Lemma dict_contains_set d k v : dict_contains (dict_set d k v) k = true.
Proof. unfold dict_contains. now rewrite dict_get_set_same. Qed.

Lemma dict_get_keys_items d :
  NoDup (keys d) ->
  map (fun k => dict_get d k) (keys d) = map (fun item => Some (snd item)) d.
Proof.
  induction d as [| [k v] rest IH]; simpl; intros Hnd; [reflexivity |].
  inversion Hnd as [| ? ? Hout Hrest]; subst.
  rewrite String.eqb_refl. f_equal.
  rewrite <- (IH Hrest). apply map_ext_in. intros k' Hin.
  destruct (String.eqb_spec k' k) as [-> | Hne]; [contradiction | reflexivity].
Qed.

Lemma map_fst_filter_keys d (p : string -> bool) :
  map fst (filter (fun item => p (fst item)) d) = filter p (keys d).
Proof.
  induction d as [| [k v] rest IH]; simpl; [reflexivity |].
  destruct (p k); simpl; now rewrite IH.
Qed.

End MoreDictFacts.

Section MoreRegistryFacts.

Context {World : Type}.
Implicit Types (pm : PluginManager World) (info : PluginInfo World).

Lemma set_enabled_same info : set_enabled info (enabled info) = info.
Proof. now destruct info. Qed.

Lemma known_key pm k info :
  dict_get (available_plugins pm) k = Some info -> In k (keys (available_plugins pm)).
Proof. apply dict_get_some_in. Qed.

(** The descriptors after [enable_plugin]. *)
Lemma available_after_enable pm k n :
  dict_get (available_plugins (snd (enable_plugin pm k))) n =
  if String.eqb n k
  then option_map (fun info => set_enabled info true) (dict_get (available_plugins pm) k)
  else dict_get (available_plugins pm) n.
Proof.
  unfold enable_plugin.
  destruct (dict_get (available_plugins pm) k) as [info |] eqn:Hget; simpl.
  - destruct (enabled info) eqn:Hen; simpl.
    + destruct (String.eqb_spec n k) as [-> | Hne]; [| reflexivity].
      rewrite Hget. simpl. now rewrite <- Hen, set_enabled_same.
    + destruct (String.eqb_spec n k) as [-> | Hne].
      * apply dict_get_set_same.
      * now apply dict_get_set_other.
  - destruct (String.eqb_spec n k) as [-> | Hne]; [assumption | reflexivity].
Qed.

(** The descriptors after [disable_plugin]. *)
Lemma available_after_disable pm k n :
  dict_get (available_plugins (snd (disable_plugin pm k))) n =
  if String.eqb n k
  then option_map (fun info => set_enabled info false) (dict_get (available_plugins pm) k)
  else dict_get (available_plugins pm) n.
Proof.
  unfold disable_plugin.
  destruct (dict_get (available_plugins pm) k) as [info |] eqn:Hget; simpl.
  - destruct (enabled info) eqn:Hen; simpl.
    + destruct (String.eqb_spec n k) as [-> | Hne].
      * apply dict_get_set_same.
      * now apply dict_get_set_other.
    + destruct (String.eqb_spec n k) as [-> | Hne]; [| reflexivity].
      rewrite Hget. simpl. now rewrite <- Hen, set_enabled_same.
  - destruct (String.eqb_spec n k) as [-> | Hne]; [assumption | reflexivity].
Qed.

Lemma keys_after_enable pm k :
  keys (available_plugins (snd (enable_plugin pm k))) = keys (available_plugins pm).
Proof.
  unfold enable_plugin.
  destruct (dict_get (available_plugins pm) k) as [info |] eqn:Hget; [| reflexivity].
  destruct (enabled info); simpl; [reflexivity |].
  apply keys_dict_set_present. now apply dict_get_some_in in Hget.
Qed.

Lemma keys_after_disable pm k :
  keys (available_plugins (snd (disable_plugin pm k))) = keys (available_plugins pm).
Proof.
  unfold disable_plugin.
  destruct (dict_get (available_plugins pm) k) as [info |] eqn:Hget; [| reflexivity].
  destruct (enabled info); simpl; [| reflexivity].
  apply keys_dict_set_present. now apply dict_get_some_in in Hget.
Qed.

Lemma toggle_plugin_cases pm k info :
  dict_get (available_plugins pm) k = Some info ->
  toggle_plugin pm k =
  if enabled info
  then ((fst (disable_plugin pm k), false), snd (disable_plugin pm k))
  else ((fst (enable_plugin pm k), true), snd (enable_plugin pm k)).
Proof.
  intros Hget. unfold toggle_plugin. rewrite Hget.
  destruct (enabled info).
  - now destruct (disable_plugin pm k).
  - now destruct (enable_plugin pm k).
Qed.

Lemma enable_known_disabled pm k info :
  dict_get (available_plugins pm) k = Some info ->
  enabled info = false ->
  enable_plugin pm k =
  (true,
   {| plugin_folder := plugin_folder pm;
      available_plugins := dict_set (available_plugins pm) k (set_enabled info true);
      loaded_plugins := dict_set (loaded_plugins pm) k (instance info) |}).
Proof. intros Hget Hen. unfold enable_plugin. now rewrite Hget, Hen. Qed.

Lemma disable_known_enabled pm k info :
  registry_consistent pm ->
  dict_get (available_plugins pm) k = Some info ->
  enabled info = true ->
  disable_plugin pm k =
  (true,
   {| plugin_folder := plugin_folder pm;
      available_plugins := dict_set (available_plugins pm) k (set_enabled info false);
      loaded_plugins := dict_del (loaded_plugins pm) k |}).
Proof.
  intros (_ & _ & Hiff & _ & _) Hget Hen. unfold disable_plugin.
  rewrite Hget, Hen.
  assert (Hc : dict_contains (loaded_plugins pm) k = true).
  { apply dict_contains_true. apply Hiff. now exists info. }
  now rewrite Hc.
Qed.

Lemma not_loaded_when_disabled pm k info :
  registry_consistent pm ->
  dict_get (available_plugins pm) k = Some info ->
  enabled info = false ->
  ~ In k (keys (loaded_plugins pm)).
Proof.
  intros (_ & _ & Hiff & _ & _) Hget Hen Hin.
  apply Hiff in Hin. destruct Hin as (info' & Hget' & Hen'). congruence.
Qed.

End MoreRegistryFacts.

(** X1.  Enabling twice is enabling once, and disabling twice is disabling
    once: the second call returns the same answer and leaves the registry
    as the first call left it. *)
Theorem enable_disable_idempotent :
  forall (World : Type) (pm : PluginManager World) (plugin_name : string),
    enable_plugin (snd (enable_plugin pm plugin_name)) plugin_name =
      enable_plugin pm plugin_name /\
    disable_plugin (snd (disable_plugin pm plugin_name)) plugin_name =
      disable_plugin pm plugin_name.
Proof.
  intros World pm k. split.
  - unfold enable_plugin at 1 3.
    rewrite available_after_enable, String.eqb_refl.
    unfold enable_plugin.
    destruct (dict_get (available_plugins pm) k) as [info |] eqn:Hget; simpl;
      [| reflexivity].
    destruct (enabled info) eqn:Hen; simpl; reflexivity.
  - unfold disable_plugin at 1 3.
    rewrite available_after_disable, String.eqb_refl.
    unfold disable_plugin.
    destruct (dict_get (available_plugins pm) k) as [info |] eqn:Hget; simpl;
      [| reflexivity].
    destruct (enabled info) eqn:Hen; simpl; reflexivity.
Qed.

Lemma enable_disable_round_trip {World} (pm : PluginManager World) k info :
  registry_consistent pm ->
  dict_get (available_plugins pm) k = Some info ->
  enabled info = false ->
  disable_plugin (snd (enable_plugin pm k)) k = (true, pm).
Proof.
  intros Hpm Hget Hen.
  pose proof (not_loaded_when_disabled pm k info Hpm Hget Hen) as Hout.
  rewrite (enable_known_disabled pm k info Hget Hen). simpl.
  unfold disable_plugin; simpl.
  rewrite dict_get_set_same. simpl.
  rewrite dict_contains_set, dict_set_twice, (dict_del_set_absent _ _ _ Hout).
  replace (set_enabled (set_enabled info true) false) with info
    by (rewrite <- Hen at 1; destruct info; reflexivity).
  rewrite (dict_set_same_value _ _ _ Hget). now destruct pm.
Qed.

(** X2.  In a consistent registry, enabling a disabled plugin and then
    disabling it gives back the registry one started from, descriptors,
    dispatch order and all. *)
Theorem enable_then_disable_restores :
  forall (World : Type) (pm : PluginManager World) plugin_name info,
    registry_consistent pm ->
    dict_get (available_plugins pm) plugin_name = Some info ->
    enabled info = false ->
    disable_plugin (snd (enable_plugin pm plugin_name)) plugin_name = (true, pm).
Proof. intros World pm k info. apply enable_disable_round_trip. Qed.

Lemma enable_then_disable_restores_witness :
  dict_get (available_plugins Demo.two_plugins) "pose" =
    Some (make_plugin_info "pose" Demo.pose_only) /\
  disable_plugin (snd (enable_plugin Demo.two_plugins "pose")) "pose" =
    (true, Demo.two_plugins).
Proof.
  split; [reflexivity |].
  apply (enable_then_disable_restores nat Demo.two_plugins "pose"
           (make_plugin_info "pose" Demo.pose_only)).
  - apply registry_check_sound. reflexivity.
  - reflexivity.
  - reflexivity.
Defined.

(** X3.  In a consistent registry, toggling a registered plugin reports
    success and the negation of its flag, and toggling it again reports the
    flag it had.  After the two calls every descriptor and the list of
    enabled plugins are as before.  A plugin that was disabled leaves the
    whole registry as before; a plugin that was enabled has moved to the
    end of the dispatch order. *)
Theorem toggle_twice :
  forall (World : Type) (pm : PluginManager World) plugin_name info,
    registry_consistent pm ->
    dict_get (available_plugins pm) plugin_name = Some info ->
    fst (toggle_plugin pm plugin_name) = (true, negb (enabled info)) /\
    fst (toggle_plugin (snd (toggle_plugin pm plugin_name)) plugin_name) =
      (true, enabled info) /\
    available_plugins (snd (toggle_plugin (snd (toggle_plugin pm plugin_name))
                              plugin_name)) = available_plugins pm /\
    get_enabled_plugins (snd (toggle_plugin (snd (toggle_plugin pm plugin_name))
                                plugin_name)) = get_enabled_plugins pm /\
    (enabled info = false ->
     snd (toggle_plugin (snd (toggle_plugin pm plugin_name)) plugin_name) = pm) /\
    (enabled info = true ->
     loaded_plugins (snd (toggle_plugin (snd (toggle_plugin pm plugin_name))
                            plugin_name)) =
     dict_del (loaded_plugins pm) plugin_name ++ [(plugin_name, instance info)]).
Proof.
  intros World pm k info Hpm Hget.
  rewrite (toggle_plugin_cases pm k info Hget).
  destruct (enabled info) eqn:Hen; simpl.
  - (* enabled: disable, then enable *)
    rewrite (disable_known_enabled pm k info Hpm Hget Hen). simpl.
    set (pm1 := {| plugin_folder := plugin_folder pm;
                   available_plugins :=
                     dict_set (available_plugins pm) k (set_enabled info false);
                   loaded_plugins := dict_del (loaded_plugins pm) k |}).
    assert (Hget1 : dict_get (available_plugins pm1) k = Some (set_enabled info false))
      by apply dict_get_set_same.
    rewrite (toggle_plugin_cases pm1 k _ Hget1). simpl.
    rewrite (enable_known_disabled pm1 k _ Hget1 eq_refl). simpl.
    rewrite dict_set_twice.
    replace (set_enabled (set_enabled info false) true) with info
      by (rewrite <- Hen at 1; destruct info; reflexivity).
    rewrite (dict_set_same_value _ _ _ Hget).
    repeat split; try reflexivity; try discriminate.
    intros _. apply dict_set_absent.
    destruct Hpm as (_ & Hnd & _). rewrite (in_keys_dict_del _ _ _ Hnd). tauto.
  - (* disabled: enable, then disable *)
    pose proof (enable_disable_round_trip pm k info Hpm Hget Hen) as Hback.
    rewrite (enable_known_disabled pm k info Hget Hen) in *. simpl in *.
    set (pm1 := {| plugin_folder := plugin_folder pm;
                   available_plugins :=
                     dict_set (available_plugins pm) k (set_enabled info true);
                   loaded_plugins := dict_set (loaded_plugins pm) k (instance info) |})
      in *.
    assert (Hget1 : dict_get (available_plugins pm1) k = Some (set_enabled info true))
      by apply dict_get_set_same.
    rewrite (toggle_plugin_cases pm1 k _ Hget1). simpl. rewrite Hback. simpl.
    repeat split; try reflexivity; discriminate.
Qed.

Lemma toggle_twice_witness :
  dict_get (available_plugins Demo.two_plugins) "alpha" =
    Some (set_enabled (make_plugin_info "alpha" (Demo.says "alpha here")) true) /\
  keys (loaded_plugins Demo.two_plugins) = ["alpha"; "beta"] /\
  keys (loaded_plugins
          (snd (toggle_plugin (snd (toggle_plugin Demo.two_plugins "alpha")) "alpha"))) =
    ["beta"; "alpha"] /\
  get_enabled_plugins
    (snd (toggle_plugin (snd (toggle_plugin Demo.two_plugins "alpha")) "alpha")) =
  get_enabled_plugins Demo.two_plugins.
Proof.
  split; [reflexivity |]. split; [reflexivity |]. split; [reflexivity |].
  apply (toggle_twice nat Demo.two_plugins "alpha"
           (set_enabled (make_plugin_info "alpha" (Demo.says "alpha here")) true)).
  - apply registry_check_sound. reflexivity.
  - reflexivity.
Defined.

(** X4.  [enable_plugin], [disable_plugin] and [toggle_plugin] called for
    one plugin leave every other plugin alone: its descriptor and its entry
    in [loaded_plugins] are as before. *)
Theorem other_plugins_untouched :
  forall (World : Type) (pm : PluginManager World) plugin_name other,
    other <> plugin_name ->
    (dict_get (available_plugins (snd (enable_plugin pm plugin_name))) other =
       dict_get (available_plugins pm) other /\
     dict_get (loaded_plugins (snd (enable_plugin pm plugin_name))) other =
       dict_get (loaded_plugins pm) other) /\
    (dict_get (available_plugins (snd (disable_plugin pm plugin_name))) other =
       dict_get (available_plugins pm) other /\
     dict_get (loaded_plugins (snd (disable_plugin pm plugin_name))) other =
       dict_get (loaded_plugins pm) other) /\
    (dict_get (available_plugins (snd (toggle_plugin pm plugin_name))) other =
       dict_get (available_plugins pm) other /\
     dict_get (loaded_plugins (snd (toggle_plugin pm plugin_name))) other =
       dict_get (loaded_plugins pm) other).
Proof.
  intros World pm k other Hne.
  assert (Hen : dict_get (available_plugins (snd (enable_plugin pm k))) other =
                  dict_get (available_plugins pm) other /\
                dict_get (loaded_plugins (snd (enable_plugin pm k))) other =
                  dict_get (loaded_plugins pm) other).
  { split.
    - rewrite available_after_enable.
      destruct (String.eqb_spec other k); [contradiction | reflexivity].
    - unfold enable_plugin.
      destruct (dict_get (available_plugins pm) k) as [info |]; [| reflexivity].
      destruct (enabled info); simpl; [reflexivity |].
      now apply dict_get_set_other. }
  assert (Hdis : dict_get (available_plugins (snd (disable_plugin pm k))) other =
                   dict_get (available_plugins pm) other /\
                 dict_get (loaded_plugins (snd (disable_plugin pm k))) other =
                   dict_get (loaded_plugins pm) other).
  { split.
    - rewrite available_after_disable.
      destruct (String.eqb_spec other k); [contradiction | reflexivity].
    - unfold disable_plugin.
      destruct (dict_get (available_plugins pm) k) as [info |]; [| reflexivity].
      destruct (enabled info); simpl; [| reflexivity].
      destruct (dict_contains (loaded_plugins pm) k); [| reflexivity].
      now apply dict_get_del_other. }
  split; [exact Hen |]. split; [exact Hdis |].
  unfold toggle_plugin.
  destruct (dict_get (available_plugins pm) k) as [info |]; [| now split].
  destruct (enabled info).
  - destruct (disable_plugin pm k); exact Hdis.
  - destruct (enable_plugin pm k); exact Hen.
Qed.

Lemma other_plugins_untouched_witness :
  dict_get (loaded_plugins (snd (disable_plugin Demo.two_plugins "alpha"))) "beta" =
  dict_get (loaded_plugins Demo.two_plugins) "beta".
Proof.
  apply (other_plugins_untouched nat Demo.two_plugins "alpha" "beta").
  discriminate.
Defined.

(** X5.  The three operations never add, remove or reorder descriptors, and
    they change nothing of a descriptor but its [enabled] flag. *)
Theorem descriptors_are_stable :
  forall (World : Type) (pm : PluginManager World) plugin_name,
    (keys (available_plugins (snd (enable_plugin pm plugin_name))) =
       keys (available_plugins pm) /\
     keys (available_plugins (snd (disable_plugin pm plugin_name))) =
       keys (available_plugins pm) /\
     keys (available_plugins (snd (toggle_plugin pm plugin_name))) =
       keys (available_plugins pm)) /\
    (forall n,
        option_map (fun info => set_enabled info false)
          (dict_get (available_plugins (snd (enable_plugin pm plugin_name))) n) =
        option_map (fun info => set_enabled info false)
          (dict_get (available_plugins pm) n) /\
        option_map (fun info => set_enabled info false)
          (dict_get (available_plugins (snd (disable_plugin pm plugin_name))) n) =
        option_map (fun info => set_enabled info false)
          (dict_get (available_plugins pm) n) /\
        option_map (fun info => set_enabled info false)
          (dict_get (available_plugins (snd (toggle_plugin pm plugin_name))) n) =
        option_map (fun info => set_enabled info false)
          (dict_get (available_plugins pm) n)).
Proof.
  intros World pm k.
  assert (Ht : snd (toggle_plugin pm k) = snd (enable_plugin pm k) \/
               snd (toggle_plugin pm k) = snd (disable_plugin pm k)).
  { unfold toggle_plugin.
    destruct (dict_get (available_plugins pm) k) as [info |] eqn:Hget.
    - destruct (enabled info).
      + right. now destruct (disable_plugin pm k).
      + left. now destruct (enable_plugin pm k).
    - left. unfold enable_plugin. now rewrite Hget. }
  assert (He : forall n,
    option_map (fun info => set_enabled info false)
      (dict_get (available_plugins (snd (enable_plugin pm k))) n) =
    option_map (fun info => set_enabled info false)
      (dict_get (available_plugins pm) n)).
  { intros n. rewrite available_after_enable.
    destruct (String.eqb_spec n k) as [-> | Hne]; [| reflexivity].
    now destruct (dict_get (available_plugins pm) k). }
  assert (Hd : forall n,
    option_map (fun info => set_enabled info false)
      (dict_get (available_plugins (snd (disable_plugin pm k))) n) =
    option_map (fun info => set_enabled info false)
      (dict_get (available_plugins pm) n)).
  { intros n. rewrite available_after_disable.
    destruct (String.eqb_spec n k) as [-> | Hne]; [| reflexivity].
    now destruct (dict_get (available_plugins pm) k). }
  split.
  - split; [apply keys_after_enable |]. split; [apply keys_after_disable |].
    destruct Ht as [-> | ->]; [apply keys_after_enable | apply keys_after_disable].
  - intros n. split; [apply He |]. split; [apply Hd |].
    destruct Ht as [-> | ->]; [apply He | apply Hd].
Qed.

Section ReportingFacts.

Context {World : Type}.
Implicit Types (pm : PluginManager World) (info : PluginInfo World).

(** With unique keys, [get_enabled_plugins] filters the registered names by
    their flag. *)
Lemma get_enabled_plugins_filter pm :
  NoDup (keys (available_plugins pm)) ->
  get_enabled_plugins pm = filter (is_enabled pm) (keys (available_plugins pm)).
Proof.
  intros Hnd. unfold get_enabled_plugins.
  rewrite <- map_fst_filter_keys. f_equal.
  apply filter_ext_in. intros [n info] Hin. simpl.
  unfold is_enabled. now rewrite (in_pair_dict_get _ _ _ Hnd Hin).
Qed.

Lemma is_enabled_loaded pm n :
  registry_consistent pm ->
  is_enabled pm n = dict_contains (loaded_plugins pm) n.
Proof.
  intros (_ & _ & Hiff & _ & _). unfold is_enabled.
  destruct (dict_contains (loaded_plugins pm) n) eqn:Hc.
  - apply dict_contains_true in Hc. apply Hiff in Hc.
    destruct Hc as (info & -> & Hen). exact Hen.
  - apply dict_contains_false in Hc.
    destruct (dict_get (available_plugins pm) n) as [info |] eqn:Hget; [| reflexivity].
    destruct (enabled info) eqn:Hen; [| reflexivity].
    exfalso. apply Hc. apply Hiff. now exists info.
Qed.

Lemma is_enabled_after_enable pm k n :
  is_enabled (snd (enable_plugin pm k)) n =
  (is_enabled pm n || (String.eqb n k && dict_contains (available_plugins pm) k))%bool.
Proof.
  unfold is_enabled, dict_contains. rewrite available_after_enable.
  destruct (String.eqb_spec n k) as [-> | Hne]; simpl.
  - destruct (dict_get (available_plugins pm) k); simpl;
      [now rewrite orb_true_r | reflexivity].
  - now rewrite orb_false_r.
Qed.

Lemma is_enabled_after_disable pm k n :
  is_enabled (snd (disable_plugin pm k)) n =
  (is_enabled pm n && negb (String.eqb n k))%bool.
Proof.
  unfold is_enabled. rewrite available_after_disable.
  destruct (String.eqb_spec n k) as [-> | Hne]; simpl.
  - destruct (dict_get (available_plugins pm) k); simpl;
      [now rewrite andb_false_r | reflexivity].
  - now rewrite andb_true_r.
Qed.

End ReportingFacts.

Lemma enabled_report {World} (pm : PluginManager World) :
  registry_consistent pm ->
  get_enabled_plugins pm =
    filter (dict_contains (loaded_plugins pm)) (keys (available_plugins pm)) /\
  NoDup (get_enabled_plugins pm) /\
  Permutation (get_enabled_plugins pm) (keys (loaded_plugins pm)).
Proof.
  intros Hpm.
  pose proof Hpm as (Hnd & Hndl & Hiff & _ & _).
  assert (Heq : get_enabled_plugins pm =
                filter (dict_contains (loaded_plugins pm)) (keys (available_plugins pm))).
  { rewrite (get_enabled_plugins_filter pm Hnd).
    apply filter_ext. intros n. now apply is_enabled_loaded. }
  assert (Hnde : NoDup (get_enabled_plugins pm))
    by (rewrite Heq; now apply NoDup_filter).
  repeat split; try assumption.
  apply NoDup_Permutation; try assumption.
  intros n. rewrite (in_get_enabled_plugins pm n Hnd). symmetry. apply Hiff.
Qed.

(** X6.  In a consistent registry [get_enabled_plugins] lists, in
    registration order, the registered names that are keys of
    [loaded_plugins]; it is a rearrangement of the dispatch order, without
    repetition. *)
Theorem enabled_report_in_registration_order :
  forall (World : Type) (pm : PluginManager World),
    registry_consistent pm ->
    get_enabled_plugins pm =
      filter (dict_contains (loaded_plugins pm)) (keys (available_plugins pm)) /\
    NoDup (get_enabled_plugins pm) /\
    Permutation (get_enabled_plugins pm) (keys (loaded_plugins pm)).
Proof. intros World pm. apply enabled_report. Qed.

Lemma enabled_report_in_registration_order_witness :
  keys (loaded_plugins Demo.beta_first) = ["beta"; "alpha"] /\
  get_enabled_plugins Demo.beta_first = ["alpha"; "beta"] /\
  Permutation (get_enabled_plugins Demo.beta_first) (keys (loaded_plugins Demo.beta_first)).
Proof.
  split; [reflexivity |]. split; [reflexivity |].
  apply (enabled_report_in_registration_order nat Demo.beta_first).
  apply registry_check_sound. reflexivity.
Defined.

Section DiscoveryOrder.

Context {World : Type}.

Lemma keys_discover (pkg : PluginPackage World) files acc :
  NoDup files ->
  (forall f, In f files -> ~ In f (keys acc)) ->
  keys (fold_left (discover_one pkg) files acc) =
  keys acc ++ filter (registers pkg) files.
Proof.
  revert acc. induction files as [| f files IH]; intros acc Hnd Hfresh; simpl.
  - now rewrite app_nil_r.
  - inversion Hnd as [| ? ? Hf Hrest]; subst.
    assert (Hstep : keys (discover_one pkg acc f) =
                    keys acc ++ (if registers pkg f then [f] else [])).
    { unfold discover_one, registers.
      destruct (startswith_dunder f); simpl; [now rewrite app_nil_r |].
      destruct (import_module pkg f); try now rewrite app_nil_r.
      rewrite dict_set_absent by (apply Hfresh; now left).
      unfold keys. now rewrite map_app. }
    rewrite IH; [| assumption |].
    + rewrite Hstep, <- app_assoc. now destruct (registers pkg f).
    + intros g Hg. rewrite Hstep. intros Hin.
      apply in_app_or in Hin. destruct Hin as [Hin | Hin].
      * apply (Hfresh g); [now right | assumption].
      * destruct (registers pkg f); [| contradiction].
        destruct Hin as [<- | []]. contradiction.
Qed.

End DiscoveryOrder.

Lemma filter_none {A} (p : A -> bool) (l : list A) :
  (forall x, In x l -> p x = false) -> filter p l = [].
Proof.
  induction l as [| x l IH]; intros H; simpl; [reflexivity |].
  rewrite (H x) by now left. apply IH. intros y Hy. apply H. now right.
Qed.

Lemma filter_all {A} (p : A -> bool) (l : list A) :
  (forall x, In x l -> p x = true) -> filter p l = l.
Proof.
  induction l as [| x l IH]; intros H; simpl; [reflexivity |].
  rewrite (H x) by now left. f_equal. apply IH. intros y Hy. apply H. now right.
Qed.

Lemma new_plugin_manager_nothing_enabled {World} folder
    (package : option (PluginPackage World)) n :
  is_enabled (new_plugin_manager folder package) n = false.
Proof.
  rewrite (is_enabled_loaded _ n (new_plugin_manager_consistent folder package)).
  now destruct package.
Qed.

(** X7.  When the plugin files have distinct names, discovery registers, in
    the order in which the files are listed, the files that do not start
    with two underscores and whose module loads a plugin.  Whatever the
    files, a new manager has no plugin enabled, and a plugin folder that
    cannot be imported gives an empty registry. *)
Theorem discovery_order :
  forall (World : Type) (folder : string) (pkg : PluginPackage World),
    NoDup (plugin_files pkg) ->
    keys (available_plugins (new_plugin_manager folder (Some pkg))) =
      filter (registers pkg) (plugin_files pkg) /\
    get_enabled_plugins (new_plugin_manager folder (Some pkg)) = [] /\
    available_plugins (new_plugin_manager folder (@None (PluginPackage World))) = [].
Proof.
  intros World folder pkg Hnd. repeat split.
  - unfold new_plugin_manager, discover_plugins; simpl.
    rewrite keys_discover; [reflexivity | assumption | intros f _ []].
  - pose proof (new_plugin_manager_consistent folder (Some pkg)) as (Hk & _).
    rewrite (get_enabled_plugins_filter _ Hk).
    apply filter_none. intros n _. apply new_plugin_manager_nothing_enabled.
Qed.

Lemma discovery_order_witness :
  NoDup (plugin_files Demo.package) /\
  keys (available_plugins Demo.registry) =
    ["alpha"; "beta"; "crash"; "tint"; "pose"; "count"].
Proof.
  assert (Hnd : NoDup (plugin_files Demo.package)).
  { apply distinct_nodup. reflexivity. }
  split; [exact Hnd |].
  exact (proj1 (discovery_order nat "posture_framework.plugins" Demo.package Hnd)).
Defined.

(** X8.  In a consistent registry [get_all_plugins_info] returns one dict
    per registered plugin, in registration order, each built from the
    descriptor of that plugin; [get_plugin_info] returns [None] exactly for
    the names that are not registered.  The document of [GET /api/plugins]
    counts the registered plugins as its total and never reports more
    enabled plugins than that. *)
Theorem plugin_listing :
  forall (World : Type) (pm : PluginManager World),
    registry_consistent pm ->
    get_all_plugins_info pm =
      map (fun item => Some (info_dict (snd item))) (available_plugins pm) /\
    (forall n, get_plugin_info pm n = None <-> ~ In n (keys (available_plugins pm))) /\
    Routes.plugins_total (Routes.get_plugins pm) = List.length (available_plugins pm) /\
    (Routes.plugins_enabled (Routes.get_plugins pm) <=
     Routes.plugins_total (Routes.get_plugins pm))%nat.
Proof.
  intros World pm (Hnd & _).
  assert (Hall : get_all_plugins_info pm =
                 map (fun item => Some (info_dict (snd item))) (available_plugins pm)).
  { unfold get_all_plugins_info, get_plugin_info.
    transitivity (map (option_map info_dict)
                    (map (fun k => dict_get (available_plugins pm) k)
                       (keys (available_plugins pm)))).
    - rewrite map_map. apply map_ext. intros k.
      now destruct (dict_get (available_plugins pm) k).
    - rewrite (dict_get_keys_items _ Hnd), map_map. reflexivity. }
  split; [exact Hall |]. split; [| split].
  - intros n. unfold get_plugin_info. rewrite <- dict_get_none_iff.
    destruct (dict_get (available_plugins pm) n); split; intros; congruence.
  - unfold Routes.get_plugins; simpl. now rewrite Hall, length_map.
  - unfold Routes.get_plugins; simpl. rewrite Hall, length_map.
    unfold get_enabled_plugins. rewrite length_map. apply filter_length_le.
Qed.

Lemma plugin_listing_witness :
  map (option_map info_name) (get_all_plugins_info Demo.two_plugins) =
    [Some "alpha"; Some "beta"; Some "crash"; Some "tint"; Some "pose"; Some "count"] /\
  get_all_plugins_info Demo.two_plugins =
    map (fun item => Some (info_dict (snd item))) (available_plugins Demo.two_plugins).
Proof.
  split; [reflexivity |].
  apply (plugin_listing nat Demo.two_plugins).
  apply registry_check_sound. reflexivity.
Defined.

Section ToggleAllFacts.

Context {World : Type}.
Implicit Types (pm : PluginManager World).

Lemma enable_plugin_success pm k :
  fst (enable_plugin pm k) = dict_contains (available_plugins pm) k.
Proof.
  unfold enable_plugin, dict_contains.
  destruct (dict_get (available_plugins pm) k) as [info |]; [| reflexivity].
  now destruct (enabled info).
Qed.

Lemma disable_plugin_success pm k :
  fst (disable_plugin pm k) = dict_contains (available_plugins pm) k.
Proof.
  unfold disable_plugin, dict_contains.
  destruct (dict_get (available_plugins pm) k) as [info |]; [| reflexivity].
  now destruct (enabled info).
Qed.

Lemma toggle_all_step_known enable pm count k :
  dict_contains (available_plugins pm) k = true ->
  Routes.toggle_all_step enable (pm, count) k =
  (snd (if enable then enable_plugin pm k else disable_plugin pm k), S count).
Proof.
  intros Hk. unfold Routes.toggle_all_step.
  destruct enable.
  - pose proof (enable_plugin_success pm k) as Hs. rewrite Hk in Hs.
    destruct (enable_plugin pm k) as [success pm1]. simpl in *. now subst.
  - pose proof (disable_plugin_success pm k) as Hs. rewrite Hk in Hs.
    destruct (disable_plugin pm k) as [success pm1]. simpl in *. now subst.
Qed.

(** The loop of [toggle_all_plugins] over names that are all registered. *)
Lemma toggle_all_fold (enable : bool) names pm count :
  registry_consistent pm ->
  incl names (keys (available_plugins pm)) ->
  registry_consistent (fst (fold_left (Routes.toggle_all_step enable) names (pm, count))) /\
  keys (available_plugins
          (fst (fold_left (Routes.toggle_all_step enable) names (pm, count)))) =
    keys (available_plugins pm) /\
  snd (fold_left (Routes.toggle_all_step enable) names (pm, count)) =
    (count + List.length names)%nat /\
  (forall n,
      is_enabled (fst (fold_left (Routes.toggle_all_step enable) names (pm, count))) n =
      if enable
      then (is_enabled pm n || existsb (String.eqb n) names)%bool
      else (is_enabled pm n && negb (existsb (String.eqb n) names))%bool).
Proof.
  revert pm count. induction names as [| k names IH]; intros pm count Hpm Hincl.
  - simpl. split; [exact Hpm |]. split; [reflexivity |]. split; [lia |].
    intros n. destruct enable; [now rewrite orb_false_r | now rewrite andb_true_r].
  - assert (Hk : dict_contains (available_plugins pm) k = true).
    { apply dict_contains_true. apply Hincl. now left. }
    cbn [fold_left]. rewrite (toggle_all_step_known enable pm count k Hk).
    set (pm1 := snd (if enable then enable_plugin pm k else disable_plugin pm k)).
    assert (Hc : registry_consistent pm1).
    { subst pm1. destruct enable;
        [now apply enable_plugin_consistent | now apply disable_plugin_consistent]. }
    assert (Hkeys : keys (available_plugins pm1) = keys (available_plugins pm)).
    { subst pm1. destruct enable; [apply keys_after_enable | apply keys_after_disable]. }
    destruct (IH pm1 (S count) Hc) as (H1 & H2 & H3 & H4).
    { rewrite Hkeys. intros x Hx. apply Hincl. now right. }
    split; [exact H1 |]. split; [| split].
    + now rewrite H2.
    + rewrite H3. simpl. lia.
    + intros n. rewrite H4. subst pm1. destruct enable; simpl.
      * rewrite is_enabled_after_enable, Hk, andb_true_r. now rewrite orb_assoc.
      * rewrite is_enabled_after_disable, negb_orb. now rewrite andb_assoc.
Qed.

Lemma toggle_all_plugins_unfold pm enable :
  Routes.toggle_all_plugins pm enable =
  ({| Routes.all_success :=
        Nat.ltb 0 (snd (fold_left (Routes.toggle_all_step enable)
                          (keys (available_plugins pm)) (pm, 0%nat)));
      Routes.all_count :=
        snd (fold_left (Routes.toggle_all_step enable)
               (keys (available_plugins pm)) (pm, 0%nat));
      Routes.all_enabled := enable |},
   fst (fold_left (Routes.toggle_all_step enable)
          (keys (available_plugins pm)) (pm, 0%nat))).
Proof.
  unfold Routes.toggle_all_plugins.
  now destruct (fold_left (Routes.toggle_all_step enable)
                  (keys (available_plugins pm)) (pm, 0%nat)).
Qed.

Lemma existsb_eqb_in (n : string) names :
  existsb (String.eqb n) names = true <-> In n names.
Proof.
  rewrite existsb_exists. split.
  - intros (x & Hx & Heq). apply String.eqb_eq in Heq. now subst.
  - intros Hin. exists n. split; [assumption | apply String.eqb_refl].
Qed.

End ToggleAllFacts.

(** X9.  In a consistent registry, [toggle_all_plugins] with [enable] true
    enables every registered plugin: afterwards [get_enabled_plugins] is the
    whole list of registered names, the count in the answer is the number
    of registered plugins, [success] says whether there is any, and
    [GET /api/plugins] reports as many enabled plugins as its total. *)
Theorem toggle_all_enables_every_plugin :
  forall (World : Type) (pm : PluginManager World),
    registry_consistent pm ->
    registry_consistent (snd (Routes.toggle_all_plugins pm true)) /\
    get_enabled_plugins (snd (Routes.toggle_all_plugins pm true)) =
      keys (available_plugins pm) /\
    Routes.all_count (fst (Routes.toggle_all_plugins pm true)) =
      List.length (available_plugins pm) /\
    Routes.all_success (fst (Routes.toggle_all_plugins pm true)) =
      Nat.ltb 0 (List.length (available_plugins pm)) /\
    Routes.plugins_enabled (Routes.get_plugins (snd (Routes.toggle_all_plugins pm true))) =
      Routes.plugins_total (Routes.get_plugins (snd (Routes.toggle_all_plugins pm true))).
Proof.
  intros World pm Hpm. rewrite toggle_all_plugins_unfold. simpl.
  destruct (toggle_all_fold true (keys (available_plugins pm)) pm 0%nat Hpm
              (incl_refl _)) as (Hc & Hkeys & Hcount & Hen).
  set (pm' := fst (fold_left (Routes.toggle_all_step true)
                     (keys (available_plugins pm)) (pm, 0%nat))) in *.
  assert (Hlen : List.length (keys (available_plugins pm)) =
                 List.length (available_plugins pm)) by apply length_map.
  assert (Hall : get_enabled_plugins pm' = keys (available_plugins pm)).
  { pose proof Hc as (Hnd & _).
    rewrite (get_enabled_plugins_filter pm' Hnd), Hkeys.
    apply filter_all. intros n Hin. rewrite Hen.
    apply existsb_eqb_in in Hin. rewrite Hin. apply orb_true_r. }
  split; [exact Hc |]. split; [exact Hall |]. split; [| split].
  - rewrite Hcount. simpl. exact Hlen.
  - rewrite Hcount. simpl. now rewrite Hlen.
  - unfold get_all_plugins_info. rewrite Hall, length_map, Hkeys. reflexivity.
Qed.

Lemma toggle_all_enables_every_plugin_witness :
  get_enabled_plugins Demo.two_plugins = ["alpha"; "beta"] /\
  get_enabled_plugins (snd (Routes.toggle_all_plugins Demo.two_plugins true)) =
    ["alpha"; "beta"; "crash"; "tint"; "pose"; "count"] /\
  get_enabled_plugins (snd (Routes.toggle_all_plugins Demo.two_plugins true)) =
    keys (available_plugins Demo.two_plugins).
Proof.
  split; [reflexivity |]. split; [reflexivity |].
  apply (toggle_all_enables_every_plugin nat Demo.two_plugins).
  apply registry_check_sound. reflexivity.
Defined.

(** X10.  In a consistent registry, [toggle_all_plugins] with [enable]
    false disables every plugin: afterwards no plugin is enabled,
    [loaded_plugins] is empty, so a dispatch calls nothing and returns no
    message, and the count in the answer is again the number of registered
    plugins. *)
Theorem toggle_all_disables_every_plugin :
  forall (World : Type) (int_of_str : string -> option Z) (repr : PyVal -> option string)
         (pm : PluginManager World),
    registry_consistent pm ->
    registry_consistent (snd (Routes.toggle_all_plugins pm false)) /\
    get_enabled_plugins (snd (Routes.toggle_all_plugins pm false)) = [] /\
    loaded_plugins (snd (Routes.toggle_all_plugins pm false)) = [] /\
    Routes.all_count (fst (Routes.toggle_all_plugins pm false)) =
      List.length (available_plugins pm) /\
    (forall w frame image kpts hand_res,
        run_plugins int_of_str repr (snd (Routes.toggle_all_plugins pm false))
          w frame image kpts hand_res = fresh w image).
Proof.
  intros World int_of_str repr pm Hpm. rewrite toggle_all_plugins_unfold. simpl.
  destruct (toggle_all_fold false (keys (available_plugins pm)) pm 0%nat Hpm
              (incl_refl _)) as (Hc & Hkeys & Hcount & Hen).
  set (pm' := fst (fold_left (Routes.toggle_all_step false)
                     (keys (available_plugins pm)) (pm, 0%nat))) in *.
  assert (Hoff : forall n, is_enabled pm' n = false).
  { intros n. rewrite Hen.
    destruct (existsb (String.eqb n) (keys (available_plugins pm))) eqn:Hex.
    - apply andb_false_r.
    - rewrite andb_true_r. unfold is_enabled.
      destruct (dict_get (available_plugins pm) n) as [info |] eqn:Hget; [| reflexivity].
      apply dict_get_some_in in Hget. apply existsb_eqb_in in Hget. congruence. }
  assert (Hloaded : loaded_plugins pm' = []).
  { destruct (loaded_plugins pm') as [| [n i] rest] eqn:Hl; [reflexivity |].
    pose proof (is_enabled_loaded pm' n Hc) as Hn.
    rewrite Hoff, Hl in Hn. unfold dict_contains in Hn. simpl in Hn.
    rewrite String.eqb_refl in Hn. discriminate. }
  split; [exact Hc |]. split; [| split; [exact Hloaded | split]].
  - pose proof Hc as (Hnd & _). rewrite (get_enabled_plugins_filter pm' Hnd).
    apply filter_none. intros n _. apply Hoff.
  - rewrite Hcount. simpl. apply length_map.
  - intros. unfold run_plugins. now rewrite Hloaded.
Qed.

Lemma toggle_all_disables_every_plugin_witness :
  loaded_plugins (snd (Routes.toggle_all_plugins Demo.two_plugins false)) = [] /\
  Routes.all_count (fst (Routes.toggle_all_plugins Demo.two_plugins false)) = 6%nat.
Proof.
  assert (H : registry_consistent Demo.two_plugins)
    by (apply registry_check_sound; reflexivity).
  destruct (toggle_all_disables_every_plugin nat Demo.int_of_str Demo.repr
              Demo.two_plugins H) as (_ & _ & Hl & Hc & _).
  split; [exact Hl | exact Hc].
Defined.

(** X11.  [POST /api/plugins/toggle] answers "Plugin name required" for a
    request without a plugin name or with an empty one, and "Plugin not
    found" for a name that is not registered, leaving the registry as it
    was in both cases.  For a registered name it answers success with the
    negation of the plugin's flag, and that is the flag the plugin has
    afterwards. *)
Theorem toggle_route_answers :
  forall (World : Type) (pm : PluginManager World),
    Routes.toggle_plugin pm None = (Routes.NotToggled "Plugin name required", pm) /\
    Routes.toggle_plugin pm (Some "") = (Routes.NotToggled "Plugin name required", pm) /\
    (forall n,
        n <> "" ->
        dict_contains (available_plugins pm) n = false ->
        Routes.toggle_plugin pm (Some n) = (Routes.NotToggled "Plugin not found", pm)) /\
    (forall n,
        n <> "" ->
        dict_contains (available_plugins pm) n = true ->
        exists message,
          fst (Routes.toggle_plugin pm (Some n)) =
            Routes.Toggled (negb (is_enabled pm n)) message /\
          is_enabled (snd (Routes.toggle_plugin pm (Some n))) n = negb (is_enabled pm n)).
Proof.
  intros World pm. split; [reflexivity |]. split; [reflexivity |]. split.
  - intros n Hn Hunknown. unfold Routes.toggle_plugin.
    destruct (String.eqb_spec n ""); [contradiction |].
    unfold toggle_plugin. unfold dict_contains in Hunknown.
    now destruct (dict_get (available_plugins pm) n).
  - intros n Hn Hknown. unfold Routes.toggle_plugin.
    destruct (String.eqb_spec n ""); [contradiction |].
    unfold dict_contains in Hknown.
    destruct (dict_get (available_plugins pm) n) as [info |] eqn:Hget;
      [| discriminate].
    rewrite (toggle_plugin_cases pm n info Hget).
    assert (Hflag : is_enabled pm n = enabled info)
      by (unfold is_enabled; now rewrite Hget).
    rewrite Hflag.
    destruct (enabled info) eqn:Hen.
    + rewrite disable_plugin_success. unfold dict_contains. rewrite Hget. simpl.
      eexists. split; [reflexivity |].
      rewrite is_enabled_after_disable, String.eqb_refl. apply andb_false_r.
    + rewrite enable_plugin_success. unfold dict_contains. rewrite Hget. simpl.
      eexists. split; [reflexivity |].
      rewrite is_enabled_after_enable, String.eqb_refl.
      unfold dict_contains. rewrite Hget. apply orb_true_r.
Qed.

Lemma toggle_route_answers_witness :
  fst (Routes.toggle_plugin Demo.two_plugins (Some "alpha")) =
    Routes.Toggled false "Plugin disabled successfully" /\
  is_enabled (snd (Routes.toggle_plugin Demo.two_plugins (Some "alpha"))) "alpha" =
    negb (is_enabled Demo.two_plugins "alpha") /\
  Routes.toggle_plugin Demo.two_plugins (Some "gamma") =
    (Routes.NotToggled "Plugin not found", Demo.two_plugins).
Proof.
  pose proof (toggle_route_answers nat Demo.two_plugins) as (_ & _ & Hno & Hyes).
  split; [reflexivity |]. split.
  - destruct (Hyes "alpha") as (message & _ & Hflag);
      [discriminate | reflexivity | exact Hflag].
  - apply Hno; [discriminate | reflexivity].
Defined.

Section DefaultPluginFacts.

Context {World : Type}.
Implicit Types (pm : PluginManager World).

Lemma enable_if_registered pm k :
  (if dict_contains (available_plugins pm) k then snd (enable_plugin pm k) else pm) =
  snd (enable_plugin pm k).
Proof.
  unfold dict_contains, enable_plugin.
  now destruct (dict_get (available_plugins pm) k).
Qed.

Lemma dict_contains_same_keys {V} (d d' : dict V) k :
  keys d = keys d' -> dict_contains d k = dict_contains d' k.
Proof.
  intros Hkeys. destruct (dict_contains d' k) eqn:Hc.
  - apply dict_contains_true. rewrite Hkeys. now apply dict_contains_true.
  - apply dict_contains_false. rewrite Hkeys. now apply dict_contains_false.
Qed.

(** Enabling a plugin of a consistent registry puts it last in dispatch
    order, or changes nothing when it is unknown or enabled already. *)
Lemma keys_loaded_after_enable pm k :
  registry_consistent pm ->
  keys (loaded_plugins (snd (enable_plugin pm k))) =
  keys (loaded_plugins pm) ++
  (if (dict_contains (available_plugins pm) k && negb (is_enabled pm k))%bool
   then [k] else []).
Proof.
  intros Hpm. unfold dict_contains, is_enabled.
  destruct (dict_get (available_plugins pm) k) as [info |] eqn:Hget.
  - destruct (enabled info) eqn:Hen; simpl.
    + unfold enable_plugin. rewrite Hget, Hen. simpl. now rewrite app_nil_r.
    + rewrite (enable_known_disabled pm k info Hget Hen). simpl.
      rewrite dict_set_absent by exact (not_loaded_when_disabled pm k info Hpm Hget Hen).
      unfold keys. now rewrite map_app.
  - unfold enable_plugin. rewrite Hget. simpl. now rewrite app_nil_r.
Qed.

End DefaultPluginFacts.

(** X12.  After startup, that is discovery followed by the loop over the
    default plugins, the plugins in dispatch order are those of
    ["finger_count"; "raise"] that were discovered, in that order; the
    enabled plugins reported are the registered names among these two, and
    the registry is consistent. *)
Theorem default_plugins_enabled :
  forall (World : Type) (folder : string) (package : option (PluginPackage World)),
    registry_consistent (enable_default_plugins (new_plugin_manager folder package)) /\
    keys (loaded_plugins (enable_default_plugins (new_plugin_manager folder package))) =
      filter (dict_contains (available_plugins (new_plugin_manager folder package)))
        default_plugins /\
    get_enabled_plugins (enable_default_plugins (new_plugin_manager folder package)) =
      filter (fun n => existsb (String.eqb n) default_plugins)
        (keys (available_plugins (new_plugin_manager folder package))).
Proof.
  intros World folder package.
  set (pm0 := new_plugin_manager folder package).
  pose proof (new_plugin_manager_consistent folder package) as H0. fold pm0 in H0.
  unfold enable_default_plugins, default_plugins. cbn [fold_left].
  rewrite (enable_if_registered pm0 "finger_count").
  set (pm1 := snd (enable_plugin pm0 "finger_count")).
  rewrite (enable_if_registered pm1 "raise").
  set (pm2 := snd (enable_plugin pm1 "raise")).
  assert (H1 : registry_consistent pm1) by now apply enable_plugin_consistent.
  assert (H2 : registry_consistent pm2) by now apply enable_plugin_consistent.
  assert (Hoff : forall n, is_enabled pm0 n = false)
    by (intros n; apply new_plugin_manager_nothing_enabled).
  assert (Hk1 : keys (available_plugins pm1) = keys (available_plugins pm0))
    by apply keys_after_enable.
  assert (Hk2 : keys (available_plugins pm2) = keys (available_plugins pm0))
    by (unfold pm2; now rewrite keys_after_enable).
  assert (Hc1 : dict_contains (available_plugins pm1) "raise" =
                dict_contains (available_plugins pm0) "raise")
    by now apply dict_contains_same_keys.
  assert (Hl0 : loaded_plugins pm0 = []) by (unfold pm0; now destruct package).
  split; [exact H2 |]. split.
  - unfold pm2. rewrite (keys_loaded_after_enable pm1 "raise" H1).
    unfold pm1 at 1. rewrite (keys_loaded_after_enable pm0 "finger_count" H0).
    rewrite Hl0, Hc1, (Hoff "finger_count"). fold pm1.
    unfold pm1 at 1. rewrite is_enabled_after_enable, (Hoff "raise"). simpl.
    destruct (dict_contains (available_plugins pm0) "finger_count"),
      (dict_contains (available_plugins pm0) "raise"); reflexivity.
  - pose proof H2 as (Hnd & _).
    rewrite (get_enabled_plugins_filter pm2 Hnd), Hk2.
    apply filter_ext_in. intros n Hin.
    unfold pm2. rewrite is_enabled_after_enable, Hc1.
    unfold pm1. rewrite is_enabled_after_enable, Hoff. simpl.
    apply dict_contains_true in Hin.
    destruct (String.eqb_spec n "finger_count") as [Hf | Hf];
      destruct (String.eqb_spec n "raise") as [Hr | Hr]; simpl;
      try reflexivity; try (rewrite <- Hf); try (rewrite <- Hr);
      rewrite ?Hin; reflexivity.
Qed.

(* ================================================================== *)
(** * Further properties of the dispatch *)

Section MoreDispatchFacts.

Context {World : Type}.
Context (int_of_str : string -> option Z) (repr : PyVal -> option string).

Lemma int_tuple_length items rgb :
  int_tuple int_of_str items = Ok rgb -> List.length rgb = List.length items.
Proof.
  revert rgb. induction items as [| c items IH]; intros rgb; simpl.
  - now intros [= <-].
  - destruct (py_int int_of_str c); [| discriminate].
    destruct (int_tuple int_of_str items) as [zs |]; [| discriminate].
    intros [= <-]. simpl. f_equal. now apply IH.
Qed.

(** What one [try] body can do to the two lists: nothing, or one more
    message with or without its color. *)
Lemma collect_cases returned msgs cols m c raised :
  collect int_of_str repr returned msgs cols = (m, c, raised) ->
  (m = msgs /\ c = cols) \/
  (exists msg text rgb,
      truthy msg = Ok true /\ py_str repr msg = Ok text /\ m = msgs ++ [text] /\
      ((c = cols ++ [rgb] /\ List.length rgb = 3%nat /\ raised = None) \/
       (c = cols /\ raised = Some IntError))).
Proof.
  unfold collect, accepted. intros Hc.
  destruct returned as [v | e]; [| left; injection Hc as <- <- _; now split].
  destruct (unpack2 v) as [[msg color] | e];
    [| left; injection Hc as <- <- _; now split].
  destruct (truthy msg) as [[|] | e] eqn:Hmsg;
    try (left; injection Hc as <- <- _; now split).
  destruct (truthy color) as [[|] | e];
    try (left; injection Hc as <- <- _; now split).
  destruct (tuple_or_list color) as [items |];
    [| left; injection Hc as <- <- _; now split].
  destruct (Nat.eqb (List.length items) 3) eqn:Hlen;
    [| left; injection Hc as <- <- _; now split].
  destruct (py_str repr msg) as [text | e] eqn:Htext;
    [| left; injection Hc as <- <- _; now split].
  right. exists msg, text.
  destruct (int_tuple int_of_str items) as [rgb | e] eqn:Hrgb.
  - exists rgb. injection Hc as <- <- <-.
    split; [exact Hmsg |]. split; [exact Htext |]. split; [reflexivity |].
    left. split; [reflexivity |]. split; [| reflexivity].
    rewrite (int_tuple_length _ _ Hrgb). now apply Nat.eqb_eq.
  - exists []. injection Hc as <- <- <-.
    split; [exact Hmsg |]. split; [exact Htext |]. split; [reflexivity |].
    right. split; [reflexivity |]. now rewrite (int_tuple_raise _ _ _ Hrgb).
Qed.

End MoreDispatchFacts.

Section DispatchInvariants.

Context {World : Type}.
Context (int_of_str : string -> option Z) (repr : PyVal -> option string).

Lemma run_plugin_lists frame kpts hand_res (d : Dispatch World) item :
  exists returned raised,
    collect int_of_str repr returned (messages d) (colors d) =
    (messages (run_plugin int_of_str repr frame kpts hand_res d item),
     colors (run_plugin int_of_str repr frame kpts hand_res d item),
     raised).
Proof.
  destruct item as [n i]. unfold run_plugin.
  destruct (call_run i (world d) frame (annotated d) kpts hand_res)
    as [[w ann] returned].
  destruct (collect int_of_str repr returned (messages d) (colors d))
    as [[m c] raised] eqn:Hc.
  exists returned, raised. simpl. exact Hc.
Qed.

(** A property of the two lists that every [try] body keeps is kept by a
    whole dispatch. *)
Lemma run_items_preserves (Q : list string -> list (list Z) -> Prop) :
  (forall returned msgs cols m c raised,
      collect int_of_str repr returned msgs cols = (m, c, raised) ->
      Q msgs cols -> Q m c) ->
  forall frame kpts hand_res items (d : Dispatch World),
    Q (messages d) (colors d) ->
    Q (messages (run_items int_of_str repr frame kpts hand_res items d))
      (colors (run_items int_of_str repr frame kpts hand_res items d)).
Proof.
  intros Hstep frame kpts hand_res items.
  induction items as [| item items IH]; intros d HQ; [exact HQ |].
  change (run_items int_of_str repr frame kpts hand_res (item :: items) d)
    with (run_items int_of_str repr frame kpts hand_res items
            (run_plugin int_of_str repr frame kpts hand_res d item)).
  apply IH.
  destruct (run_plugin_lists frame kpts hand_res d item) as (returned & raised & Hc).
  exact (Hstep _ _ _ _ _ _ Hc HQ).
Qed.

Lemma run_items_message_count frame kpts hand_res items (d : Dispatch World) :
  (List.length (messages (run_items int_of_str repr frame kpts hand_res items d)) <=
   List.length (messages d) + List.length items)%nat.
Proof.
  revert d. induction items as [| item items IH]; intros d; [simpl; lia |].
  change (run_items int_of_str repr frame kpts hand_res (item :: items) d)
    with (run_items int_of_str repr frame kpts hand_res items
            (run_plugin int_of_str repr frame kpts hand_res d item)).
  specialize (IH (run_plugin int_of_str repr frame kpts hand_res d item)).
  destruct (run_plugin_lists frame kpts hand_res d item) as (returned & raised & Hc).
  apply collect_cases in Hc.
  destruct Hc as [[Hm _] | (msg & text & rgb & _ & _ & Hm & _)]; rewrite Hm in IH.
  - simpl. lia.
  - rewrite length_app in IH. simpl in *. lia.
Qed.

End DispatchInvariants.

(** X13.  A dispatch returns at most one message per plugin of
    [loaded_plugins] and never more colors than messages. *)
Theorem dispatch_bounds :
  forall (World : Type) (int_of_str : string -> option Z) (repr : PyVal -> option string)
         (pm : PluginManager World) w frame image kpts hand_res,
    (List.length (colors (run_plugins int_of_str repr pm w frame image kpts hand_res)) <=
     List.length (messages (run_plugins int_of_str repr pm w frame image kpts hand_res)))%nat /\
    (List.length (messages (run_plugins int_of_str repr pm w frame image kpts hand_res)) <=
     List.length (loaded_plugins pm))%nat.
Proof.
  intros World int_of_str repr pm w frame image kpts hand_res.
  unfold run_plugins. split.
  - apply (run_items_preserves int_of_str repr
             (fun msgs cols => (List.length cols <= List.length msgs)%nat));
      [| simpl; lia].
    intros returned msgs cols m c raised Hc Hle.
    apply collect_cases in Hc.
    destruct Hc as [[-> ->] | (msg & text & rgb & _ & _ & -> & [(-> & _) | (-> & _)])];
      rewrite ?length_app; simpl; lia.
  - apply (run_items_message_count int_of_str repr frame kpts hand_res
             (loaded_plugins pm) (fresh w image)).
Qed.

(** X14.  Every color that a dispatch returns has exactly three
    components. *)
Theorem dispatch_colors_are_triples :
  forall (World : Type) (int_of_str : string -> option Z) (repr : PyVal -> option string)
         (pm : PluginManager World) w frame image kpts hand_res,
    Forall (fun rgb => List.length rgb = 3%nat)
      (colors (run_plugins int_of_str repr pm w frame image kpts hand_res)).
Proof.
  intros World int_of_str repr pm w frame image kpts hand_res.
  unfold run_plugins.
  apply (run_items_preserves int_of_str repr
           (fun _ cols => Forall (fun rgb => List.length rgb = 3%nat) cols));
    [| constructor].
  intros returned msgs cols m c raised Hc Hall.
  apply collect_cases in Hc.
  destruct Hc as [[_ ->] | (msg & text & rgb & _ & _ & _ & [(-> & Hlen & _) | (-> & _)])];
    try assumption.
  apply Forall_app. split; [assumption | now constructor].
Qed.

Section ListedDispatchFacts.

Context {World : Type}.
Context (int_of_str : string -> option Z) (repr : PyVal -> option string).
Context (class_name : Instance World -> string).

Lemma listed_step_agrees frame kpts hand_res (d d' : Dispatch World) n i :
  world d = world d' -> annotated d = annotated d' ->
  messages d = messages d' -> colors d = colors d' ->
  world (run_plugin int_of_str repr frame kpts hand_res d (n, Some i)) =
    world (run_listed_plugin int_of_str repr class_name frame kpts hand_res d' i) /\
  annotated (run_plugin int_of_str repr frame kpts hand_res d (n, Some i)) =
    annotated (run_listed_plugin int_of_str repr class_name frame kpts hand_res d' i) /\
  messages (run_plugin int_of_str repr frame kpts hand_res d (n, Some i)) =
    messages (run_listed_plugin int_of_str repr class_name frame kpts hand_res d' i) /\
  colors (run_plugin int_of_str repr frame kpts hand_res d (n, Some i)) =
    colors (run_listed_plugin int_of_str repr class_name frame kpts hand_res d' i).
Proof.
  intros Hw Ha Hm Hc. unfold run_plugin, run_listed_plugin, call_run.
  rewrite Hw, Ha, Hm, Hc.
  destruct (run i (world d') frame (annotated d') kpts hand_res) as [[w ann] returned].
  destruct (collect int_of_str repr returned (messages d') (colors d'))
    as [[m c] raised].
  now repeat split.
Qed.

Lemma listed_fold_agrees frame kpts hand_res (named : list (string * Instance World)) :
  forall d d' : Dispatch World,
    world d = world d' -> annotated d = annotated d' ->
    messages d = messages d' -> colors d = colors d' ->
    let r := run_items int_of_str repr frame kpts hand_res
               (map (fun p => (fst p, Some (snd p))) named) d in
    let r' := fold_left (run_listed_plugin int_of_str repr class_name frame kpts hand_res)
                (map snd named) d' in
    world r = world r' /\ annotated r = annotated r' /\
    messages r = messages r' /\ colors r = colors r'.
Proof.
  induction named as [| [n i] named IH]; intros d d' Hw Ha Hm Hc; simpl.
  - now repeat split.
  - destruct (listed_step_agrees frame kpts hand_res d d' n i Hw Ha Hm Hc)
      as (Hw' & Ha' & Hm' & Hc').
    exact (IH _ _ Hw' Ha' Hm' Hc').
Qed.

End ListedDispatchFacts.

(** X16.  The module-level [run_plugins] of [run_Application.py] and
    [run_demo.py], run on the list of the instances that [loaded_plugins]
    holds, in dict order, returns the same messages and colors as
    [PluginManager.run_plugins] and leaves the same image and the same
    world. *)
Theorem listed_dispatch_agrees :
  forall (World : Type) (int_of_str : string -> option Z) (repr : PyVal -> option string)
         (class_name : Instance World -> string)
         (pm : PluginManager World) (named : list (string * Instance World))
         w frame image kpts hand_res,
    loaded_plugins pm = map (fun p => (fst p, Some (snd p))) named ->
    messages (run_plugins int_of_str repr pm w frame image kpts hand_res) =
      messages (run_listed_plugins int_of_str repr class_name (map snd named)
                  w frame image kpts hand_res) /\
    colors (run_plugins int_of_str repr pm w frame image kpts hand_res) =
      colors (run_listed_plugins int_of_str repr class_name (map snd named)
                w frame image kpts hand_res) /\
    annotated (run_plugins int_of_str repr pm w frame image kpts hand_res) =
      annotated (run_listed_plugins int_of_str repr class_name (map snd named)
                   w frame image kpts hand_res) /\
    world (run_plugins int_of_str repr pm w frame image kpts hand_res) =
      world (run_listed_plugins int_of_str repr class_name (map snd named)
               w frame image kpts hand_res).
Proof.
  intros World int_of_str repr class_name pm named w frame image kpts hand_res Hl.
  unfold run_plugins, run_listed_plugins. rewrite Hl.
  destruct (listed_fold_agrees int_of_str repr class_name frame kpts hand_res named
              (fresh w image) (fresh w image) eq_refl eq_refl eq_refl eq_refl)
    as (Hw & Ha & Hm & Hc).
  now repeat split.
Qed.

Lemma listed_dispatch_agrees_witness :
  messages (Demo.run_plugins Demo.with_crash 0%nat Demo.frame_small Demo.frame_small
              None Demo.no_hands) =
  messages (run_listed_plugins Demo.int_of_str Demo.repr (fun _ => "Plugin")
              [Demo.says "alpha here"; Demo.crashing; Demo.says "beta here"]
              0%nat Demo.frame_small Demo.frame_small None Demo.no_hands).
Proof.
  apply (listed_dispatch_agrees nat Demo.int_of_str Demo.repr (fun _ => "Plugin")
           Demo.with_crash
           [("alpha", Demo.says "alpha here"); ("crash", Demo.crashing);
            ("beta", Demo.says "beta here")]).
  reflexivity.
Defined.

(* ================================================================== *)
(** * Further properties of the detection loop *)

Section MoreLoopFacts.

Context {World : Type}.
Context (int_of_str : string -> option Z) (repr : PyVal -> option string).

(** What a completed iteration leaves. *)
Lemma loop_body_cycle_inv env (s s' : LoopState World) :
  loop_body int_of_str repr env s = Cycle s' ->
  exists frame hand_res,
    cap_read env = Some frame /\
    s' = {| frame_count := frame_count s + 1;
            globals := publish (globals s) (cycle_output int_of_str repr env s frame hand_res);
            loop_world := world (cycle_dispatch int_of_str repr env s frame hand_res);
            loop_trace := loop_trace s ++
                          trace (cycle_dispatch int_of_str repr env s frame hand_res) |} /\
    output_of s' = [cycle_output int_of_str repr env s frame hand_res].
Proof.
  intros Hbody.
  destruct (is_detection_running env) eqn:Hrun;
    [| unfold loop_body in Hbody; rewrite Hrun in Hbody; discriminate].
  destruct (cap_isOpened env) eqn:Hopen;
    [| unfold loop_body in Hbody; rewrite Hrun, Hopen in Hbody; discriminate].
  destruct (cap_read env) as [frame |] eqn:Hread;
    [| unfold loop_body in Hbody; rewrite Hrun, Hopen, Hread in Hbody; discriminate].
  destruct (hands_process env (ImCvtRGB (ImResize frame TARGET_WIDTH TARGET_HEIGHT)))
    as [hand_res | e] eqn:Hhands.
  - rewrite (loop_body_cycle int_of_str repr env s frame hand_res
               Hrun Hopen Hread Hhands) in Hbody.
    injection Hbody as <-. exists frame, hand_res. repeat split.
  - rewrite (loop_body_abort int_of_str repr env s frame e Hrun Hopen Hread Hhands)
      in Hbody. discriminate.
Qed.

Lemma published_frame_counts envs (s : LoopState World) :
  frame_count (fst (detection_loop int_of_str repr envs s)) =
    frame_count s + Z.of_nat (List.length (published int_of_str repr envs s)) +
    unpublished_frames (snd (detection_loop int_of_str repr envs s)) /\
  map (fun out => st_frame_count (out_status out)) (published int_of_str repr envs s) =
    map (fun i => frame_count s + Z.of_nat i)
      (seq 1 (List.length (published int_of_str repr envs s))) /\
  frame_count (fst (detection_loop int_of_str repr envs s)) - frame_count s <=
    Z.of_nat (List.length (filter (fun env => is_some (cap_read env)) envs)).
Proof.
  revert s. induction envs as [| env later IH]; intros s; simpl.
  - repeat split; lia.
  - destruct (loop_body int_of_str repr env s) as [| | s' | s' e] eqn:Hbody; simpl.
    + repeat split; lia.
    + destruct (IH s) as (H1 & H2 & H3). repeat split; try assumption.
      destruct (is_some (cap_read env)); cbn [List.length]; lia.
    + destruct (loop_body_cycle_inv env s s' Hbody) as (frame & hand_res & Hread & Hs & Hout).
      destruct (IH s') as (H1 & H2 & H3).
      assert (Hcount : frame_count s' = frame_count s + 1) by (rewrite Hs; reflexivity).
      rewrite Hout, Hread. split; [| split].
      * cbn [app List.length]. rewrite H1, Hcount. lia.
      * simpl. f_equal.
        rewrite H2, <- (seq_shift (List.length (published int_of_str repr later s')) 1),
          map_map.
        apply map_ext. intros i. rewrite Hcount. lia.
      * cbn [is_some List.length]. lia.
    + rewrite (loop_body_abort_read _ _ _ _ _ _ Hbody).
      rewrite (loop_body_abort_inv _ _ _ _ _ _ Hbody).
      cbn [List.length frame_count]. repeat split; lia.
Qed.

Lemma status_describes_step env (s s' : LoopState World) :
  0 <= frame_count s ->
  loop_body int_of_str repr env s = Cycle s' ->
  0 <= frame_count s' /\ status_describes (frame_count s') (globals s').
Proof.
  intros Hpos Hbody.
  destruct (loop_body_cycle_inv env s s' Hbody) as (frame & hand_res & Hread & Hs & Hout).
  subst s'. simpl. split; [lia |]. right. split; [lia |].
  eexists. eexists. repeat split.
Qed.

Lemma status_describes_loop envs (s : LoopState World) :
  0 <= frame_count s ->
  status_describes (frame_count s) (globals s) ->
  status_describes
    (frame_count (fst (detection_loop int_of_str repr envs s)) -
     unpublished_frames (snd (detection_loop int_of_str repr envs s)))
    (globals (fst (detection_loop int_of_str repr envs s))).
Proof.
  revert s. induction envs as [| env later IH]; intros s Hpos Hs; simpl.
  - now rewrite Z.sub_0_r.
  - destruct (loop_body int_of_str repr env s) as [| | s' | s' e] eqn:Hbody; simpl.
    + now rewrite Z.sub_0_r.
    + now apply IH.
    + destruct (status_describes_step env s s' Hpos Hbody). now apply IH.
    + rewrite (loop_body_abort_inv _ _ _ _ _ _ Hbody). simpl.
      now replace (frame_count s + 1 - 1) with (frame_count s) by lia.
Qed.

End MoreLoopFacts.

(** X17.  The frame counter counts the frames read, not the cycles
    completed: after the loop it has advanced by the number of outputs
    published, plus one when an exception ended the loop (the frame in
    process had been counted and is not published).  The published
    statuses carry the consecutive numbers that follow the starting count,
    and the counter never advances by more than the number of frames read
    from the camera (a failed read publishes nothing and is not counted). *)
Theorem frame_counter_counts_frames_read :
  forall (World : Type) (int_of_str : string -> option Z) (repr : PyVal -> option string)
         (envs : list (FrameEnv World)) (s : LoopState World),
    frame_count (fst (detection_loop int_of_str repr envs s)) =
      frame_count s + Z.of_nat (List.length (published int_of_str repr envs s)) +
      unpublished_frames (snd (detection_loop int_of_str repr envs s)) /\
    map (fun out => st_frame_count (out_status out)) (published int_of_str repr envs s) =
      map (fun i => frame_count s + Z.of_nat i)
        (seq 1 (List.length (published int_of_str repr envs s))) /\
    frame_count (fst (detection_loop int_of_str repr envs s)) - frame_count s <=
      Z.of_nat (List.length (filter (fun env => is_some (cap_read env)) envs)).
Proof. intros. apply published_frame_counts. Qed.

(** X18.  Run without a concurrent reader from its initial state, the loop
    leaves the globals of its last completed cycle.  The number of that
    cycle is the loop's counter, less one when an exception ended the loop
    while a counted frame was in process.  When it is zero nothing is
    published; otherwise a frame is published, and a status whose frame
    count is that number and whose plugin count is the number of published
    messages. *)
Theorem published_status_describes_cycle :
  forall (World : Type) (int_of_str : string -> option Z) (repr : PyVal -> option string)
         (envs : list (FrameEnv World)) (w : World),
    status_describes
      (frame_count (fst (detection_loop int_of_str repr envs (initial_loop_state w))) -
       unpublished_frames
         (snd (detection_loop int_of_str repr envs (initial_loop_state w))))
      (globals (fst (detection_loop int_of_str repr envs (initial_loop_state w)))).
Proof.
  intros World int_of_str repr envs w.
  apply status_describes_loop; [simpl; lia |].
  left. split; reflexivity.
Qed.

(** X19.  A failure of the pose stage does not end the iteration.  When
    the model raises, returns no result, or its [plot] raises, the plugins
    are run on a copy of the resized frame (with the hand landmarks drawn)
    and without keypoints, the cycle is published with the next frame count
    and the status says that no person is detected.  When only the keypoint
    extraction raises, the plotted image is kept and the keypoints are
    absent. *)
Theorem pose_failure_recovered :
  forall (World : Type) (int_of_str : string -> option Z) (repr : PyVal -> option string)
         (env : FrameEnv World) (s : LoopState World) frame hand_res,
    is_detection_running env = true ->
    cap_isOpened env = true ->
    cap_read env = Some frame ->
    hands_process env (ImCvtRGB (ImResize frame TARGET_WIDTH TARGET_HEIGHT)) =
      Ok hand_res ->
    ((exists e, model env (ImResize frame TARGET_WIDTH TARGET_HEIGHT) = Raise e) \/
     model env (ImResize frame TARGET_WIDTH TARGET_HEIGHT) = Ok [] \/
     (exists r rs e, model env (ImResize frame TARGET_WIDTH TARGET_HEIGHT) = Ok (r :: rs) /\
                     plot r = Raise e) ->
     exists s',
       loop_body int_of_str repr env s = Cycle s' /\
       frame_count s' = frame_count s + 1 /\
       option_map st_person_detected (current_status (globals s')) = Some false /\
       option_map st_frame_count (current_status (globals s')) =
         Some (frame_count s + 1) /\
       current_messages (globals s') =
         messages (run_plugins int_of_str repr (plugin_manager env) (loop_world s)
                     (ImResize frame TARGET_WIDTH TARGET_HEIGHT)
                     (draw_hands (ImResize frame TARGET_WIDTH TARGET_HEIGHT) hand_res)
                     None hand_res)) /\
    (forall r rs plotted e,
        model env (ImResize frame TARGET_WIDTH TARGET_HEIGHT) = Ok (r :: rs) ->
        plot r = Ok plotted ->
        keypoints_data r = Raise e ->
        infer_pose env (ImResize frame TARGET_WIDTH TARGET_HEIGHT) = (plotted, None)).
Proof.
  intros World int_of_str repr env s frame hand_res Hrun Hopen Hread Hhands. split.
  - intros Hfail.
    assert (Hpose : infer_pose env (ImResize frame TARGET_WIDTH TARGET_HEIGHT) =
                    (ImResize frame TARGET_WIDTH TARGET_HEIGHT, None)).
    { unfold infer_pose.
      destruct Hfail as [(e & ->) | [-> | (r & rs & e & -> & ->)]]; reflexivity. }
    rewrite (loop_body_cycle int_of_str repr env s frame hand_res Hrun Hopen Hread Hhands).
    eexists. split; [reflexivity |]. simpl.
    unfold cycle_dispatch. rewrite Hpose. simpl. repeat split.
  - intros r rs plotted e Hmodel Hplot Hdata. unfold infer_pose.
    now rewrite Hmodel, Hplot, Hdata.
Qed.

Lemma pose_failure_recovered_witness :
  model (Demo.pose_fail_env Demo.two_plugins) Demo.frame_small =
    Raise (ExternalError "pose model failed") /\
  exists s',
    Demo.loop_body (Demo.pose_fail_env Demo.two_plugins) (initial_loop_state 0%nat) =
      Cycle s' /\
    frame_count s' = 1 /\
    option_map st_person_detected (current_status (globals s')) = Some false.
Proof.
  split; [reflexivity |].
  destruct (proj1 (pose_failure_recovered nat Demo.int_of_str Demo.repr
                     (Demo.pose_fail_env Demo.two_plugins) (initial_loop_state 0%nat)
                     Demo.camera_frame Demo.no_hands eq_refl eq_refl eq_refl eq_refl))
    as (s' & Hbody & Hcount & Hperson & _).
  { left. eexists. reflexivity. }
  exists s'. repeat split; assumption.
Defined.

(** X20.  In a consistent registry a dispatch calls each enabled plugin
    exactly once: the calls are distinct and there are as many as enabled
    plugins. *)
Theorem each_enabled_plugin_called_once :
  forall (World : Type) (int_of_str : string -> option Z) (repr : PyVal -> option string)
         (pm : PluginManager World) w frame image kpts hand_res,
    registry_consistent pm ->
    NoDup (invoked (trace (run_plugins int_of_str repr pm w frame image kpts hand_res))) /\
    List.length (invoked (trace (run_plugins int_of_str repr pm w frame image
                                   kpts hand_res))) =
      List.length (get_enabled_plugins pm).
Proof.
  intros World int_of_str repr pm w frame image kpts hand_res Hpm.
  rewrite (invoked_run_plugins int_of_str repr pm w frame image kpts hand_res Hpm).
  destruct (enabled_report pm Hpm) as (_ & _ & Hperm).
  pose proof Hpm as (_ & Hnd & _).
  split; [exact Hnd |]. symmetry. now apply Permutation_length.
Qed.

Lemma each_enabled_plugin_called_once_witness :
  invoked (trace (Demo.run_plugins Demo.beta_first 0%nat Demo.frame_small
                    Demo.frame_small None Demo.no_hands)) = ["beta"; "alpha"] /\
  List.length (invoked (trace (Demo.run_plugins Demo.beta_first 0%nat Demo.frame_small
                                 Demo.frame_small None Demo.no_hands))) =
    List.length (get_enabled_plugins Demo.beta_first).
Proof.
  split; [reflexivity |].
  apply (each_enabled_plugin_called_once nat Demo.int_of_str Demo.repr Demo.beta_first).
  apply registry_check_sound. reflexivity.
Defined.

(* ================================================================== *)
(** * Further properties of the readers *)

Section MoreThreadFacts.

(** Nothing published yet, and no reader has obtained anything. *)
Lemma nothing_published_run schedule sys :
  shared sys = initial_globals ->
  response (status_request sys) = empty_document ->
  video sys = {| video_pc := TestFrame; yielded := [] |} ->
  pending (producer sys) = [] \/ ~ In DetectionThread schedule ->
  shared (run_schedule schedule sys) = initial_globals /\
  response (status_request (run_schedule schedule sys)) = empty_document /\
  video (run_schedule schedule sys) = {| video_pc := TestFrame; yielded := [] |}.
Proof.
  revert sys. induction schedule as [| t schedule IH]; intros sys Hg Hr Hv Hidle.
  - now repeat split.
  - simpl. apply IH.
    + destruct t; simpl; try assumption.
      destruct Hidle as [Hp | Hno]; [| exfalso; apply Hno; now left].
      unfold producer_step. rewrite Hp. exact Hg.
    + destruct t; simpl; try assumption.
      * now destruct (producer_step (shared sys) (producer sys)).
      * rewrite Hg. destruct (status_request sys) as [pc doc]. simpl in *. subst doc.
        now destruct pc.
    + destruct t; simpl; try assumption.
      * now destruct (producer_step (shared sys) (producer sys)).
      * rewrite Hg, Hv. reflexivity.
    + destruct Hidle as [Hp | Hno].
      * left. destruct t; simpl; try assumption.
        unfold producer_step. now rewrite Hp.
      * right. intros Hin. apply Hno. now right.
Qed.

Lemma step_detection sys :
  step sys DetectionThread =
  {| shared := fst (producer_step (shared sys) (producer sys));
     producer := snd (producer_step (shared sys) (producer sys));
     status_request := status_request sys;
     video := video sys |}.
Proof. simpl. now destruct (producer_step (shared sys) (producer sys)). Qed.

Lemma producer_keeps_frame g p :
  current_frame g <> None -> current_frame (fst (producer_step g p)) <> None.
Proof.
  intros Hf. unfold producer_step.
  destruct (pending p) as [| out later]; [exact Hf |].
  destruct (publish_pc p); simpl; try exact Hf. discriminate.
Qed.

(** The stream never loads [None] to encode it: once a frame is stored the
    global holds a frame for good. *)
Lemma never_broken_run schedule sys :
  video_pc (video sys) <> Broken ->
  (video_pc (video sys) = EncodeFrame -> current_frame (shared sys) <> None) ->
  video_pc (video (run_schedule schedule sys)) <> Broken.
Proof.
  revert sys. induction schedule as [| t schedule IH]; intros sys Hnb Henc.
  - exact Hnb.
  - change (run_schedule (t :: schedule) sys) with (run_schedule schedule (step sys t)).
    destruct t.
    + rewrite step_detection. apply IH; simpl; [exact Hnb |].
      intros Hpc. apply producer_keeps_frame. now apply Henc.
    + apply IH; simpl; assumption.
    + apply IH; simpl; unfold video_step;
        destruct (video_pc (video sys)) eqn:Hpc; simpl.
      * destruct (is_some (current_frame (shared sys))); simpl;
          [discriminate | now rewrite Hpc].
      * destruct (current_frame (shared sys)) eqn:Hf; simpl; [discriminate |].
        exfalso. now apply Henc.
      * contradiction.
      * destruct (current_frame (shared sys)) eqn:Hf; simpl.
        -- intros _. discriminate.
        -- rewrite Hpc. discriminate.
      * destruct (current_frame (shared sys)); simpl; discriminate.
      * contradiction.
Qed.

End MoreThreadFacts.

(** X21.  Before the first publication, that is as long as the detection
    thread has made no step or when the loop never completes a cycle, a
    status request is answered with no messages, no colors and the empty
    status, and the video stream yields nothing and keeps testing. *)
Theorem nothing_before_first_publication :
  forall (outs : list CycleOutput) (schedule : list Thread),
    outs = [] \/ ~ In DetectionThread schedule ->
    shared (run_schedule schedule (initial_system outs)) = initial_globals /\
    response (status_request (run_schedule schedule (initial_system outs))) =
      empty_document /\
    yielded (video (run_schedule schedule (initial_system outs))) = [] /\
    video_pc (video (run_schedule schedule (initial_system outs))) = TestFrame.
Proof.
  intros outs schedule Hidle.
  destruct (nothing_published_run schedule (initial_system outs) eq_refl eq_refl eq_refl)
    as (Hg & Hr & Hv).
  - destruct Hidle as [-> | Hno]; [now left | now right].
  - rewrite Hg, Hr, Hv. now repeat split.
Qed.

Lemma nothing_before_first_publication_witness :
  response
    (status_request
       (run_schedule [StatusHandler; VideoHandler; StatusHandler; StatusHandler;
                      VideoHandler]
          (initial_system Demo.count_outputs))) = empty_document.
Proof.
  apply (nothing_before_first_publication Demo.count_outputs
           [StatusHandler; VideoHandler; StatusHandler; StatusHandler; VideoHandler]).
  right. intros [H | [H | [H | [H | [H | []]]]]]; discriminate.
Defined.

(** X22.  Under every interleaving, the video stream never loads [None] as
    the frame to encode: it loads [current_frame] for encoding only after
    having seen a frame there, and the loop never resets it. *)
Theorem stream_never_encodes_none :
  forall (outs : list CycleOutput) (schedule : list Thread),
    video_pc (video (run_schedule schedule (initial_system outs))) <> Broken.
Proof.
  intros outs schedule. apply never_broken_run; simpl; discriminate.
Qed.

Section QuiescentFacts.

Variable outs : list CycleOutput.

Lemma publishing_initial : publishing outs (initial_system outs).
Proof. split; [apply incl_refl | now left]. Qed.

Lemma publishing_step sys t : publishing outs sys -> publishing outs (step sys t).
Proof.
  intros [Hincl Hpc]. destruct t; [| exact (conj Hincl Hpc) | exact (conj Hincl Hpc)].
  rewrite step_detection.
  destruct sys as [g [pend pc] r v]. unfold publishing, producer_step in *.
  simpl in *.
  destruct pend as [| out later]; [split; [exact Hincl | exact Hpc] |].
  destruct pc; simpl.
  - split; [exact Hincl |]. now exists out, later.
  - split; [exact Hincl |].
    destruct Hpc as (out' & later' & [= <- <-] & Hf).
    exists out, later. now repeat split.
  - split; [intros x Hx; apply Hincl; now right |].
    destruct Hpc as (out' & later' & [= <- <-] & Hf & Hm).
    right. exists out. split; [apply Hincl; now left |]. now repeat split.
Qed.

Lemma publishing_run schedule sys :
  publishing outs sys -> publishing outs (run_schedule schedule sys).
Proof.
  revert sys. induction schedule as [| t schedule IH]; intros sys H; simpl.
  - exact H.
  - apply IH. now apply publishing_step.
Qed.

Lemma coherent_single_cycle g :
  coherent_globals outs g ->
  single_cycle_document outs
    (get_status (current_messages g) (current_status g) (current_messages g)).
Proof.
  intros [-> | (out & Hin & _ & Hm & Hs)].
  - left. now split.
  - right. exists out. now repeat split.
Qed.

End QuiescentFacts.

(** X23.  Whenever the detection thread stands between two publications
    (its next assignment is the frame of a cycle), the three globals come
    from one and the same cycle, and a status request served there without
    a store in between returns the messages and the status of that one
    cycle. *)
Theorem snapshot_between_publications :
  forall (outs : list CycleOutput) (schedule : list Thread),
    publish_pc (producer (run_schedule schedule (initial_system outs))) = AtFrame ->
    coherent_globals outs (shared (run_schedule schedule (initial_system outs))) /\
    single_cycle_document outs
      (response
         (status_request
            (run_schedule [StatusHandler; StatusHandler; StatusHandler]
               {| shared := shared (run_schedule schedule (initial_system outs));
                  producer := producer (run_schedule schedule (initial_system outs));
                  status_request :=
                    {| status_pc := LoadMessages; response := empty_document |};
                  video := video (run_schedule schedule (initial_system outs)) |}))).
Proof.
  intros outs schedule Hat.
  destruct (publishing_run outs schedule _ (publishing_initial outs)) as [_ Hpc].
  rewrite Hat in Hpc. split; [exact Hpc |].
  rewrite status_request_atomic. now apply coherent_single_cycle.
Qed.

Lemma snapshot_between_publications_witness :
  coherent_globals Demo.count_outputs
    (shared (run_schedule
               [DetectionThread; DetectionThread; DetectionThread; StatusHandler]
               (initial_system Demo.count_outputs))).
Proof.
  apply (snapshot_between_publications Demo.count_outputs
           [DetectionThread; DetectionThread; DetectionThread; StatusHandler]).
  reflexivity.
Defined.
